(** * MultilineBashOperator.execute: a shallow embedding

    Source: SpotifyPipeline/airflow/plugins/operators/multiline_bash_operator.py

    The operator overrides one method, [execute].  The embedding follows the
    method statement by statement in a state-and-exception monad over the
    part of the world the method touches: the Python heap of dict objects
    ([os.environ] is one of them, and the supplied [env] mapping is aliased,
    not copied), the file system with what the child process leaves in it,
    the logger and the table of spawned child processes.  Both [with] blocks
    run their exits on every path, and an exit that fails replaces the
    pending result.  The nested function [pre_exec], which runs in the
    child, is embedded on its own as a function of the child's process
    state. *)

From Stdlib Require Import NArith ZArith Strings.Byte.
From stdpp Require Import base gmap sets list strings.

Local Open Scope N_scope.

(** ** Python values *)

(** A Python [str] is a sequence of Unicode code points; [bytes] is a
    sequence of octets. *)
Abbreviation pystr := (list N).
Abbreviation pybytes := (list byte).

(** ASCII literals. *)
Definition str (s : string) : pystr :=
  map (fun b => Byte.to_N b) (String.list_byte_of_string s).

Definition bytes_lit (s : string) : pybytes := String.list_byte_of_string s.

Definition byte_of_N (n : N) : byte := default x00 (Byte.of_N n).

(** *** [str.isspace] per character and [str.rstrip()]

    CPython's [Py_UNICODE_ISSPACE]: the ASCII table entries 0x09-0x0D,
    0x1C-0x1F and 0x20, and the non-ASCII code points of
    [_PyUnicode_IsWhitespace]. *)
Definition isspace (c : N) : bool :=
  ((0x09 <=? c) && (c <=? 0x0D))
  || ((0x1C <=? c) && (c <=? 0x20))
  || (c =? 0x85) || (c =? 0xA0) || (c =? 0x1680)
  || ((0x2000 <=? c) && (c <=? 0x200A))
  || (c =? 0x2028) || (c =? 0x2029) || (c =? 0x202F)
  || (c =? 0x205F) || (c =? 0x3000).

(** [s.rstrip()] with no argument: drop the longest suffix of whitespace. *)
Fixpoint rstrip (s : pystr) : pystr :=
  match s with
  | [] => []
  | c :: s' =>
      match rstrip s' with
      | [] => if isspace c then [] else [c]
      | r => c :: r
      end
  end.

(** *** [bytes(s, "utf_8")] *)

Definition is_surrogate (c : N) : bool := (0xD800 <=? c) && (c <=? 0xDFFF).

Definition cont_byte (n : N) : byte := byte_of_N (N.lor 0x80 (N.land n 0x3F)).

Definition utf8_encode_char (c : N) : option pybytes :=
  if c <? 0x80 then Some [byte_of_N c]
  else if c <? 0x800 then
    Some [byte_of_N (N.lor 0xC0 (N.shiftr c 6)); cont_byte c]
  else if c <? 0x10000 then
    if is_surrogate c then None
    else Some [byte_of_N (N.lor 0xE0 (N.shiftr c 12));
               cont_byte (N.shiftr c 6); cont_byte c]
  else if c <? 0x110000 then
    Some [byte_of_N (N.lor 0xF0 (N.shiftr c 18));
          cont_byte (N.shiftr c 12); cont_byte (N.shiftr c 6); cont_byte c]
  else None.

(** [None] stands for [UnicodeEncodeError] (a lone surrogate). *)
Fixpoint utf8_encode (s : pystr) : option pybytes :=
  match s with
  | [] => Some []
  | c :: s' =>
      match utf8_encode_char c, utf8_encode s' with
      | Some bs, Some r => Some (bs ++ r)
      | _, _ => None
      end
  end.

(** The last character of [s], if any, is not whitespace. *)
Definition no_trailing_space (s : pystr) : Prop :=
  ∀ c, last s = Some c → isspace c = false.

(** [s] without one final line feed: what removing only the line
    terminator would leave. *)
Definition strip_terminator (s : pystr) : pystr :=
  match last s with
  | Some 0x0A => removelast s
  | _ => s
  end.

(** *** The binary stream of the child: [readline] and [iter(readline, b"")] *)

Definition NL : byte := x0a.

(** [stream.readline()]: the bytes up to and including the first newline,
    or all that is left; [b""] only at end of stream.  Returns the line and
    the rest of the stream. *)
Fixpoint readline (s : pybytes) : pybytes * pybytes :=
  match s with
  | [] => ([], [])
  | b :: s' =>
      if Byte.eqb b NL then ([b], s')
      else let '(l, r) := readline s' in (b :: l, r)
  end.

(** The sequence of values produced by [iter(stream.readline, b"")]. *)
Fixpoint readlines (s : pybytes) : list pybytes :=
  match s with
  | [] => []
  | b :: s' =>
      if Byte.eqb b NL then [b] :: readlines s'
      else match readlines s' with
           | [] => [[b]]
           | l :: ls => (b :: l) :: ls
           end
  end.

(** ** The world of one invocation *)

Abbreviation dict := (gmap pystr pystr).
Abbreviation path := pystr.
Abbreviation loc := nat.

Inductive node := Dir | File (content : pybytes).
Abbreviation filesystem := (gmap path node).

(** What stands in the way of removing an entry of the file system.
    [ReadOnly]: [os.unlink] is refused (the directory the entry lies in has
    lost its write permission, say), but the clean-up of
    [TemporaryDirectory] can still get rid of the entry.  [Locked]: the
    entry cannot be removed at all (an immutable file, an entry of another
    owner, an entry of a directory that is itself immutable).  An entry
    without protection can be removed.  Which of the two an obstacle is
    depends on the operating system and on how much the clean-up of the
    Python version at hand does to lift it: one that only calls
    [shutil.rmtree] lifts nothing, and every obstacle is [Locked]. *)
Inductive protection := ReadOnly | Locked.

#[global] Instance protection_eq_dec : EqDecision protection.
Proof. solve_decision. Defined.

Abbreviation protections := (gmap path protection).

(** What [Popen] hands to the operating system: the argument vector, the
    working directory, a snapshot of the environment mapping and the file
    system the child starts in (it reads its script from there). *)
Record Spawn := {
  sp_args : list pystr;
  sp_cwd : path;
  sp_env : dict;
  sp_fs : filesystem;
  sp_protected : protections
}.

(** A child process: how it was started, everything it wrote to its
    combined stdout/stderr pipe, its exit status, and the file system as it
    left it. *)
Record Process := {
  p_spawn : Spawn;
  p_out : pybytes;
  p_rc : Z;
  p_fs : filesystem;
  p_protected : protections
}.

(** The [subprocess.Popen] object kept in [self.sub_process]. *)
Record Popen := {
  pid : nat;
  returncode : option Z
}.

(** The attributes of [self] that [execute] reads or assigns.  [env] is a
    reference to a dict object on the heap, or [None]. *)
Record Operator := {
  bash_command : pystr;
  env : option loc;
  xcom_push_flag : bool;
  output_encoding : pystr;
  task_id : pystr;
  lineage_data : option pystr;
  sub_process : option Popen
}.

(** One constructor per [self.log] call site of [execute], with the
    arguments of the call ([LogExportEnv] keeps the key/value pairs that
    the call formats into one string). *)
Inductive LogRecord :=
| LogTmpRoot (d : path)
| LogExportEnv (vars : list (pystr * pystr))
| LogScriptLocation (p : path)
| LogRunning (cmd : pystr)
| LogOutputHeader
| LogLine (line : pystr)
| LogExit (rc : Z).

(** [os_environ] is the address of the dict object [os.environ]: like any
    other dict it can be what [self.env] refers to. *)
Record State := {
  self : Operator;
  heap : gmap loc dict;
  os_environ : loc;
  tempdir : path;
  fs : filesystem;
  protected : protections;
  rng : list pystr;
  log : list LogRecord;
  procs : list Process
}.

(** [OSError] stands for the subclasses of [OSError] other than
    [FileNotFoundError] and [FileExistsError] that a refused removal
    raises: [PermissionError], [IsADirectoryError]. *)
Inductive exn :=
| AirflowException (msg : pystr)
| UnicodeEncodeError
| UnicodeDecodeError
| LookupError
| FileExistsError
| FileNotFoundError
| OSError.

Inductive outcome (A : Type) :=
| Return (a : A)
| Raise (e : exn).
Arguments Return {A} a.
Arguments Raise {A} e.

(** What [bytes.decode(encoding)] can do. *)
Inductive decoded :=
| Decoded (s : pystr)
| Undecodable
| UnknownEncoding.

(** *** State updates *)

Definition set_self (f : Operator → Operator) (st : State) : State :=
  {| self := f (self st); heap := heap st; os_environ := os_environ st;
     tempdir := tempdir st; fs := fs st; protected := protected st;
     rng := rng st; log := log st; procs := procs st |}.

Definition set_heap (f : gmap loc dict → gmap loc dict) (st : State) : State :=
  {| self := self st; heap := f (heap st); os_environ := os_environ st;
     tempdir := tempdir st; fs := fs st; protected := protected st;
     rng := rng st; log := log st; procs := procs st |}.

Definition set_fs (f : filesystem → filesystem) (st : State) : State :=
  {| self := self st; heap := heap st; os_environ := os_environ st;
     tempdir := tempdir st; fs := f (fs st); protected := protected st;
     rng := rng st; log := log st; procs := procs st |}.

Definition set_protected (f : protections → protections) (st : State) : State :=
  {| self := self st; heap := heap st; os_environ := os_environ st;
     tempdir := tempdir st; fs := fs st; protected := f (protected st);
     rng := rng st; log := log st; procs := procs st |}.

Definition set_rng (r : list pystr) (st : State) : State :=
  {| self := self st; heap := heap st; os_environ := os_environ st;
     tempdir := tempdir st; fs := fs st; protected := protected st;
     rng := r; log := log st; procs := procs st |}.

Definition add_log (r : LogRecord) (st : State) : State :=
  {| self := self st; heap := heap st; os_environ := os_environ st;
     tempdir := tempdir st; fs := fs st; protected := protected st;
     rng := rng st; log := log st ++ [r]; procs := procs st |}.

Definition add_proc (p : Process) (st : State) : State :=
  {| self := self st; heap := heap st; os_environ := os_environ st;
     tempdir := tempdir st; fs := fs st; protected := protected st;
     rng := rng st; log := log st; procs := procs st ++ [p] |}.

Definition with_lineage_data (v : pystr) (o : Operator) : Operator :=
  {| bash_command := bash_command o; env := env o;
     xcom_push_flag := xcom_push_flag o; output_encoding := output_encoding o;
     task_id := task_id o; lineage_data := Some v;
     sub_process := sub_process o |}.


Definition with_xcom_push_flag (b : bool) (o : Operator) : Operator :=
  {| bash_command := bash_command o; env := env o;
     xcom_push_flag := b; output_encoding := output_encoding o;
     task_id := task_id o; lineage_data := lineage_data o;
     sub_process := sub_process o |}.

Definition with_sub_process (p : Popen) (o : Operator) : Operator :=
  {| bash_command := bash_command o; env := env o;
     xcom_push_flag := xcom_push_flag o; output_encoding := output_encoding o;
     task_id := task_id o; lineage_data := lineage_data o;
     sub_process := Some p |}.

(** *** The monad: state, plus Python exceptions *)

Definition M (A : Type) : Type := State → outcome A * State.

#[global] Instance M_ret : MRet M := λ A a st, (Return a, st).

#[global] Instance M_bind : MBind M := λ A B f m st,
  match m st with
  | (Return a, st') => f a st'
  | (Raise e, st') => (Raise e, st')
  end.

Definition raise {A} (e : exn) : M A := λ st, (Raise e, st).
Definition gets {A} (f : State → A) : M A := λ st, (Return (f st), st).
Definition modify (f : State → State) : M unit := λ st, (Return (), f st).

(** [try: m finally: cleanup]: the cleanup runs on both exits; an exception
    of the cleanup replaces the pending outcome. *)
Definition try_finally {A} (m : M A) (cleanup : M unit) : M A := λ st,
  let '(o, st1) := m st in
  match cleanup st1 with
  | (Return _, st2) => (o, st2)
  | (Raise e, st2) => (Raise e, st2)
  end.

(** [with enter as x: body x], for a context manager whose [__exit__] does
    not swallow exceptions. *)
Definition with_ {A B} (enter : M A) (exit : A → M unit) (body : A → M B) : M B :=
  x ← enter; try_finally (body x) (exit x).

(** [for x in xs: acc = body acc x]. *)
Fixpoint for_ {A B} (xs : list A) (body : B → A → M B) (acc : B) : M B :=
  match xs with
  | [] => mret acc
  | x :: xs' => acc' ← body acc x; for_ xs' body acc'
  end.

(** ** Library calls used by [execute] *)

(** *** [self.log] *)
Definition log_info (r : LogRecord) : M unit := modify (add_log r).
Definition log_debug (r : LogRecord) : M unit := modify (add_log r).

(** *** Dict objects *)

Definition deref (l : loc) (st : State) : dict := default ∅ (heap st !! l).

(** The entries of [os.environ]: the environment of the calling process. *)
Definition environ (st : State) : dict := deref (os_environ st) st.

(** [os.environ.copy()]: a new dict object, at an address no object has
    yet, with the entries of the process environment. *)
Definition environ_copy : M loc := λ st,
  let l := fresh (dom (heap st) ∪ {[os_environ st]}) in
  (Return l, set_heap (insert l (environ st)) st).

(** [d.update(other)] on the dict object at [l]: entries of [other] win. *)
Definition dict_update (l : loc) (other : dict) : M unit :=
  modify (set_heap (alter (λ d, other ∪ d) l)).

(** *** Paths and temporary files *)

Definition SEP : pystr := str "/".

Definition path_join (d : path) (name : pystr) : path := d ++ SEP ++ name.

Fixpoint starts_with (pre s : pystr) : bool :=
  match pre, s with
  | [], _ => true
  | c :: pre', c' :: s' => (c =? c') && starts_with pre' s'
  | _ :: _, [] => false
  end.

(** [p] is the directory [d] itself or lies beneath it. *)
Definition under (d p : path) : bool :=
  bool_decide (p = d) || starts_with (d ++ SEP) p.

(** [tempfile] draws candidate names until one is unused; when the
    candidates run out it gives up with [FileExistsError]. *)
Fixpoint pick_name (files : filesystem) (base : path) (cands : list pystr)
  : option (path * list pystr) :=
  match cands with
  | [] => None
  | c :: cs =>
      match files !! (base ++ c) with
      | Some _ => pick_name files base cs
      | None => Some (base ++ c, cs)
      end
  end.

(** A new entry belongs to the process that made it: nothing at or beneath
    its path is protected. *)
Definition unprotect (p : path) (prot : protections) : protections :=
  filter (λ kv, under p kv.1 = false) prot.

Definition make_temp (base : path) (n : node) : M path := λ st,
  match pick_name (fs st) base (rng st) with
  | Some (p, cs) =>
      (Return p,
       set_protected (unprotect p) (set_fs (insert p n) (set_rng cs st)))
  | None => (Raise FileExistsError, set_rng [] st)
  end.

(** [TemporaryDirectory(prefix=...)]: [mkdtemp] under [gettempdir()] on
    entry; the exit, which removes the tree, is [rmtree] below. *)
Definition TemporaryDirectory_enter (prefix : pystr) : M path :=
  d ← gets tempdir; make_temp (path_join d prefix) Dir.

(** The file system without [d] and everything beneath it. *)
Definition rmtree_fs (d : path) (files : filesystem) : filesystem :=
  filter (λ kv, under d kv.1 = false) files.

(** Nothing that exists at or beneath [d] is [Locked]: the tree can be
    removed. *)
Definition removable_tree (d : path) (files : filesystem) (prot : protections)
  : Prop :=
  map_Forall (λ p _, under d p = true → prot !! p ≠ Some Locked) files.

#[global] Instance removable_tree_dec d files prot :
  Decision (removable_tree d files prot).
Proof. unfold removable_tree. apply _. Defined.

(** What a removal of the tree at [d] leaves when it fails: the entries it
    [reached] before the one that stopped it are gone, unless they are
    [Locked]; [d] itself, which would go last, is still there. *)
Definition rmtree_partial (reached : path → bool) (d : path)
    (prot : protections) (files : filesystem) : filesystem :=
  filter (λ kv, ¬ (under d kv.1 = true ∧ kv.1 ≠ d
                   ∧ prot !! kv.1 ≠ Some Locked ∧ reached kv.1 = true))
    files.

(** The error [os.unlink(p)] raises, if any: [p] is not there, [p] is a
    directory, or the removal is refused. *)
Definition unlink_error (files : filesystem) (prot : protections) (p : path)
  : option exn :=
  match files !! p with
  | None => Some FileNotFoundError
  | Some Dir => Some OSError
  | Some (File _) => if bool_decide (is_Some (prot !! p)) then Some OSError
                     else None
  end.

Definition unlink (p : path) : M unit := λ st,
  match unlink_error (fs st) (protected st) p with
  | Some e => (Raise e, st)
  | None => (Return (), set_fs (delete p) st)
  end.

(** [NamedTemporaryFile(dir=..., prefix=...)]: an empty file on entry,
    closed and unlinked on exit. *)
Definition NamedTemporaryFile_enter (dir : path) (prefix : pystr) : M path :=
  make_temp (path_join dir prefix) (File []).

Definition NamedTemporaryFile_exit (f : path) : M unit := unlink f.

Definition append_file (data : pybytes) (n : node) : node :=
  match n with
  | File c => File (c ++ data)
  | Dir => Dir
  end.

(** [f.write(data); f.flush()]: the data is in the file afterwards. *)
Definition write_flush (f : path) (data : pybytes) : M unit :=
  modify (set_fs (alter (append_file data) f)).

(** [bytes(s, "utf_8")]. *)
Definition bytes_utf8 (s : pystr) : M pybytes :=
  match utf8_encode s with
  | Some b => mret b
  | None => raise UnicodeEncodeError
  end.

(** The script path is absolute already: it was joined to the result of
    [mkdtemp], which is absolute. *)
Definition abspath (p : path) : path := p.

(** The platform [execute] runs on: Python's codec registry
    ([bytes.decode]), the behaviour of the [bash] child for a given
    start-up, the order in which a directory tree is walked, and Airflow's
    [context_to_airflow_vars(context, in_env_var_format)].

    The child is taken to terminate.  [bash] gives what it writes to its
    combined output pipe and its exit status, [bash_files] the file system
    as it leaves it: the child may remove or replace any entry, its own
    script and working directory included, add entries, and change what
    can be removed.  [rmtree_reached d files p] tells whether a removal of
    the tree at [d] that fails has got to the entry [p] before it stops. *)
Class Platform := {
  codec_decode : pystr → pybytes → decoded;
  bash : Spawn → pybytes * Z;
  bash_files : Spawn → filesystem * protections;
  rmtree_reached : path → filesystem → path → bool;
  context : Type;
  context_to_airflow_vars : context → bool → dict
}.

Section Execute.

Context {P : Platform}.

(** The exit of [TemporaryDirectory]: the tree at [d] is removed, and a
    tree that is gone already is no error; when an entry of it is [Locked]
    the removal fails part of the way and raises. *)
Definition rmtree (d : path) : M unit := λ st,
  if bool_decide (removable_tree d (fs st) (protected st))
  then (Return (), set_fs (rmtree_fs d) st)
  else (Raise OSError,
        set_fs (rmtree_partial (rmtree_reached d (fs st)) d (protected st)) st).

(** [Popen(args, stdout=PIPE, stderr=STDOUT, cwd=..., env=..., preexec_fn=...)]:
    one child is started; the pipe carries its combined output.  [execute]
    next looks at the file system when it leaves the [with] blocks, after
    [wait()]: the child has left it as [bash_files] says by then. *)
Definition Popen_call (args : list pystr) (cwd : path) (env_ref : loc) : M Popen := λ st,
  let sp := {| sp_args := args; sp_cwd := cwd; sp_env := deref env_ref st;
               sp_fs := fs st; sp_protected := protected st |} in
  let '(out, rc) := bash sp in
  let '(files, prot) := bash_files sp in
  (Return {| pid := length (procs st); returncode := None |},
   add_proc {| p_spawn := sp; p_out := out; p_rc := rc; p_fs := files;
               p_protected := prot |}
     (set_protected (λ _, prot) (set_fs (λ _, files) st))).

(** The lines that [iter(p.stdout.readline, b"")] yields. *)
Definition stdout_lines (p : Popen) : M (list pybytes) :=
  gets (λ st, match procs st !! pid p with
              | Some pr => readlines (p_out pr)
              | None => []
              end).

(** [self.sub_process.wait()]: blocks until the child is gone and stores
    its exit status in the Popen object. *)
Definition wait : M unit :=
  modify (λ st,
    match sub_process (self st) with
    | Some p =>
        match procs st !! pid p with
        | Some pr =>
            set_self (with_sub_process
                        {| pid := pid p; returncode := Some (p_rc pr) |}) st
        | None => st
        end
    | None => st
    end).

Definition get_returncode : M Z :=
  gets (λ st, match sub_process (self st) with
              | Some p => default 0%Z (returncode p)
              | None => 0%Z
              end).

(** [line.decode(encoding)]. *)
Definition decode (enc : pystr) (raw : pybytes) : M pystr :=
  match codec_decode enc raw with
  | Decoded s => mret s
  | Undecodable => raise UnicodeDecodeError
  | UnknownEncoding => raise LookupError
  end.

(** ** [MultilineBashOperator.execute] *)

(** The body of the [for] loop, lines 141-144: [output_buffer] is bound
    ([Some]) exactly when [xcom_push_flag] is set. *)
Definition loop_body (output_buffer : option (list pystr)) (raw : pybytes)
  : M (option (list pystr)) :=
  enc ← gets (λ st, output_encoding (self st));
  line ← decode enc raw;
  let line := rstrip line in
  flag ← gets (λ st, xcom_push_flag (self st));
  let output_buffer :=
    if flag : bool then (λ b, b ++ [line]) <$> output_buffer
    else output_buffer in
  log_info (LogLine line);;
  mret output_buffer.

(** Lines 113-151: the body of the inner [with]. *)
Definition run_script (tmp_dir : path) (env_ref : loc)
    (output_buffer : option (list pystr)) (f : path)
  : M (option (list pystr)) :=
  cmd ← gets (λ st, bash_command (self st));
  data ← bytes_utf8 cmd;
  write_flush f data;;
  let fname := f in
  let script_location := abspath fname in
  log_info (LogScriptLocation script_location);;
  cmd ← gets (λ st, bash_command (self st));
  log_info (LogRunning cmd);;
  p ← Popen_call [str "bash"; fname] tmp_dir env_ref;
  modify (set_self (with_sub_process p));;
  log_info LogOutputHeader;;
  lines ← stdout_lines p;
  output_buffer ← for_ lines loop_body output_buffer;
  wait;;
  rc ← get_returncode;
  log_info (LogExit rc);;
  if bool_decide (rc ≠ 0%Z)
  then raise (AirflowException (str "Bash command failed"))
  else mret output_buffer.

Definition execute (ctx : context) : M (option (list pystr)) :=
  d ← gets tempdir;
  log_info (LogTmpRoot d);;
  self_env ← gets (λ st, env (self st));
  env_ref ← match self_env with
            | Some l => mret l
            | None => environ_copy
            end;
  let airflow_context_vars := context_to_airflow_vars ctx true in
  log_debug (LogExportEnv (map_to_list airflow_context_vars));;
  dict_update env_ref airflow_context_vars;;
  cmd ← gets (λ st, bash_command (self st));
  modify (set_self (with_lineage_data cmd));;
  flag ← gets (λ st, xcom_push_flag (self st));
  let output_buffer := if flag : bool then Some [] else None in
  output_buffer ←
    with_ (TemporaryDirectory_enter (str "airflowtmp")) rmtree (λ tmp_dir,
      task ← gets (λ st, task_id (self st));
      with_ (NamedTemporaryFile_enter tmp_dir task) NamedTemporaryFile_exit
        (run_script tmp_dir env_ref output_buffer));
  flag ← gets (λ st, xcom_push_flag (self st));
  if flag : bool then mret output_buffer else mret None.


(** ** Closed forms

    What the loop, the inner block and the whole method compute, with the
    loop and the process-table lookups resolved.  They are proved equal to
    the definitions above and carry no meaning of their own. *)

Definition add_logs (rs : list LogRecord) (st : State) : State :=
  {| self := self st; heap := heap st; os_environ := os_environ st;
     tempdir := tempdir st; fs := fs st; protected := protected st;
     rng := rng st; log := log st ++ rs; procs := procs st |}.

(** The stripped lines up to the first one that does not decode, and the
    exception that line raises. *)
Fixpoint scan (enc : pystr) (lines : list pybytes) : list pystr * option exn :=
  match lines with
  | [] => ([], None)
  | raw :: rest =>
      match codec_decode enc raw with
      | Decoded s => let '(ls, e) := scan enc rest in (rstrip s :: ls, e)
      | Undecodable => ([], Some UnicodeDecodeError)
      | UnknownEncoding => ([], Some LookupError)
      end
  end.

Definition run_script_nf (tmp_dir : path) (env_ref : loc)
    (output_buffer : option (list pystr)) (f : path) (st : State)
  : outcome (option (list pystr)) * State :=
  let cmd := bash_command (self st) in
  match utf8_encode cmd with
  | None => (Raise UnicodeEncodeError, st)
  | Some data =>
      let st1 := add_log (LogRunning cmd)
                   (add_log (LogScriptLocation f)
                      (set_fs (alter (append_file data) f) st)) in
      let sp := {| sp_args := [str "bash"; f]; sp_cwd := tmp_dir;
                   sp_env := deref env_ref st; sp_fs := fs st1;
                   sp_protected := protected st |} in
      let pr := {| p_spawn := sp; p_out := (bash sp).1; p_rc := (bash sp).2;
                   p_fs := (bash_files sp).1;
                   p_protected := (bash_files sp).2 |} in
      let n := length (procs st) in
      let st2 := add_log LogOutputHeader
                   (set_self (with_sub_process {| pid := n; returncode := None |})
                      (add_proc pr
                         (set_protected (λ _, p_protected pr)
                            (set_fs (λ _, p_fs pr) st1)))) in
      let '(ls, e) := scan (output_encoding (self st)) (readlines (p_out pr)) in
      let st3 := add_logs (map LogLine ls) st2 in
      match e with
      | Some x => (Raise x, st3)
      | None =>
          let rc := p_rc pr in
          let st4 := add_log (LogExit rc)
                       (set_self (with_sub_process
                                    {| pid := n; returncode := Some rc |}) st3) in
          (if bool_decide (rc ≠ 0%Z)
           then Raise (AirflowException (str "Bash command failed"))
           else Return (if xcom_push_flag (self st)
                        then (λ b, b ++ ls) <$> output_buffer
                        else output_buffer),
           st4)
      end
  end.

(** The dict object the local variable [env] refers to. *)
Definition env_ref_of (st : State) : loc :=
  match env (self st) with
  | Some l => l
  | None => fresh (dom (heap st) ∪ {[os_environ st]})
  end.

(** The heap after [env.update(airflow_context_vars)]. *)
Definition heap_after (ctx : context) (st : State) : gmap loc dict :=
  let vars := context_to_airflow_vars ctx true in
  match env (self st) with
  | Some l => alter (λ d, vars ∪ d) l (heap st)
  | None => <[fresh (dom (heap st) ∪ {[os_environ st]}) := vars ∪ environ st]>
              (heap st)
  end.

(** The environment mapping the child is started with. *)
Definition child_env (ctx : context) (st : State) : dict :=
  let vars := context_to_airflow_vars ctx true in
  match env (self st) with
  | Some l => from_option (λ d, vars ∪ d) ∅ (heap st !! l)
  | None => vars ∪ environ st
  end.

(** The process-table entry of the child started by [sp]. *)
Definition child (sp : Spawn) : Process :=
  {| p_spawn := sp; p_out := (bash sp).1; p_rc := (bash sp).2;
     p_fs := (bash_files sp).1; p_protected := (bash_files sp).2 |}.

(** The script a child was started on: the second element of its argument
    vector. *)
Definition script_of (sp : Spawn) : path := default [] (sp_args sp !! 1%nat).

(** What the body of the inner [with] block comes to when the child is
    [pr]: lines 138-151. *)
Definition body_outcome (o : Operator) (pr : Process)
  : outcome (option (list pystr)) :=
  let '(ls, e) := scan (output_encoding o) (readlines (p_out pr)) in
  match e with
  | Some x => Raise x
  | None =>
      if bool_decide (p_rc pr ≠ 0%Z)
      then Raise (AirflowException (str "Bash command failed"))
      else Return (if xcom_push_flag o then Some ls else None)
  end.

(** The file system after the exit of the inner [with] block: the script
    [f] is unlinked unless that fails. *)
Definition fs_after_unlink (f : path) (files : filesystem) (prot : protections)
  : filesystem :=
  match unlink_error files prot f with
  | None => delete f files
  | Some _ => files
  end.

(** The error, if any, with which the two [with] blocks are left when the
    file system is [files]: the error of the outer exit if it fails, else
    that of the inner exit. *)
Definition exit_error (d f : path) (files : filesystem) (prot : protections)
  : option exn :=
  if bool_decide (removable_tree d (fs_after_unlink f files prot) prot)
  then unlink_error files prot f
  else Some OSError.

(** The file system after both exits. *)
Definition fs_after_exits (d f : path) (files : filesystem) (prot : protections)
  : filesystem :=
  let files1 := fs_after_unlink f files prot in
  if bool_decide (removable_tree d files1 prot)
  then rmtree_fs d files1
  else rmtree_partial (rmtree_reached d files1) d prot files1.

(** The error of the exits after the child [pr]. *)
Definition exit_error_of (pr : Process) : option exn :=
  exit_error (sp_cwd (p_spawn pr)) (script_of (p_spawn pr)) (p_fs pr)
    (p_protected pr).

(** The outcome of an invocation whose child is [pr]: an error of the
    exits replaces what the body came to. *)
Definition outcome_of (o : Operator) (pr : Process)
  : outcome (option (list pystr)) :=
  match exit_error_of pr with
  | Some e => Raise e
  | None => body_outcome o pr
  end.

(** The child left its script where it was, a file that may be unlinked. *)
Definition script_kept (pr : Process) : Prop :=
  ∃ content, p_fs pr !! script_of (p_spawn pr) = Some (File content)
             ∧ p_protected pr !! script_of (p_spawn pr) = None.

(** Nothing the child left at or beneath its working directory is
    [Locked]. *)
Definition tree_removable (pr : Process) : Prop :=
  removable_tree (sp_cwd (p_spawn pr)) (p_fs pr) (p_protected pr).

#[global] Instance tree_removable_dec pr : Decision (tree_removable pr).
Proof. unfold tree_removable. apply _. Defined.

(** The records logged before the temporary directory is made, and those
    logged once the script file is written. *)
Definition log_prologue (ctx : context) (st : State) : list LogRecord :=
  [LogTmpRoot (tempdir st);
   LogExportEnv (map_to_list (context_to_airflow_vars ctx true))].

Definition log_script (o : Operator) (f : path) (pr : Process) : list LogRecord :=
  let '(ls, e) := scan (output_encoding o) (readlines (p_out pr)) in
  [LogScriptLocation f; LogRunning (bash_command o); LogOutputHeader]
  ++ map LogLine ls
  ++ match e with
     | None => [LogExit (p_rc pr)]
     | Some _ => []
     end.

(** [self.sub_process] after the child [pr] was started as process [n]:
    [wait()] is reached only when every line decoded. *)
Definition popen_after (o : Operator) (n : nat) (pr : Process) : Popen :=
  {| pid := n;
     returncode :=
       match (scan (output_encoding o) (readlines (p_out pr))).2 with
       | None => Some (p_rc pr)
       | Some _ => None
       end |}.

Definition execute_nf (ctx : context) (st : State)
  : outcome (option (list pystr)) * State :=
  let o := self st in
  let o1 := with_lineage_data (bash_command o) o in
  let final (o' : Operator) (files : filesystem) (prot : protections)
        (names : list pystr) (records : list LogRecord) (ps : list Process)
      : State :=
    {| self := o'; heap := heap_after ctx st; os_environ := os_environ st;
       tempdir := tempdir st; fs := files; protected := prot; rng := names;
       log := log st ++ log_prologue ctx st ++ records; procs := ps |} in
  match pick_name (fs st) (path_join (tempdir st) (str "airflowtmp")) (rng st) with
  | None =>
      (Raise FileExistsError, final o1 (fs st) (protected st) [] [] (procs st))
  | Some (d, cs) =>
      let fs1 := <[d := Dir]> (fs st) in
      let prot1 := unprotect d (protected st) in
      match pick_name fs1 (path_join d (task_id o)) cs with
      | None =>
          (Raise FileExistsError,
           final o1 (rmtree_fs d fs1) prot1 [] [] (procs st))
      | Some (f, cs') =>
          let prot2 := unprotect f prot1 in
          match utf8_encode (bash_command o) with
          | None =>
              (Raise UnicodeEncodeError,
               final o1 (rmtree_fs d (delete f (<[f := File []]> fs1))) prot2
                 cs' [] (procs st))
          | Some data =>
              let fs2 := <[f := File data]> fs1 in
              let pr := child {| sp_args := [str "bash"; f]; sp_cwd := d;
                                 sp_env := child_env ctx st; sp_fs := fs2;
                                 sp_protected := prot2 |} in
              (outcome_of o pr,
               final (with_sub_process
                        (popen_after o (length (procs st)) pr) o1)
                 (fs_after_exits d f (p_fs pr) (p_protected pr))
                 (p_protected pr) cs' (log_script o f pr)
                 (procs st ++ [pr]))
          end
      end
  end.

(** The [Popen] request of the invocation, when it gets that far. *)
Definition spawn_request (ctx : context) (st : State) : option Spawn :=
  match pick_name (fs st) (path_join (tempdir st) (str "airflowtmp")) (rng st) with
  | None => None
  | Some (d, cs) =>
      match pick_name (<[d := Dir]> (fs st))
              (path_join d (task_id (self st))) cs with
      | None => None
      | Some (f, _) =>
          match utf8_encode (bash_command (self st)) with
          | None => None
          | Some data =>
              Some {| sp_args := [str "bash"; f]; sp_cwd := d;
                      sp_env := child_env ctx st;
                      sp_fs := <[f := File data]> (<[d := Dir]> (fs st));
                      sp_protected := unprotect f (unprotect d (protected st)) |}
          end
      end
  end.

(** [l] is what the loop logs and captures for the raw line [raw]. *)
Definition captured (enc : pystr) (raw : pybytes) (l : pystr) : Prop :=
  ∃ t, codec_decode enc raw = Decoded t ∧ l = rstrip t.

End Execute.

(** ** [pre_exec], lines 121-126

    The function [Popen] runs in the child between [fork] and [exec]: it
    acts on the child's own process state. *)

Inductive handler := SIG_DFL | SIG_IGN | PyHandler (id : nat).

(** The part of a process [pre_exec] touches: the signal dispositions (by
    signal number; a number not in the map has the default disposition),
    and the process, session and process-group ids. *)
Record ProcState := {
  dispositions : gmap nat handler;
  ps_pid : nat;
  ps_sid : nat;
  ps_pgid : nat
}.

Definition disposition (ps : ProcState) (signum : nat) : handler :=
  default SIG_DFL (dispositions ps !! signum).

(** [signal.signal(signum, handler)]. *)
Definition signal_signal (signum : nat) (h : handler) (ps : ProcState) : ProcState :=
  {| dispositions := <[signum := h]> (dispositions ps); ps_pid := ps_pid ps;
     ps_sid := ps_sid ps; ps_pgid := ps_pgid ps |}.

(** [os.setsid()]: the caller becomes leader of a new session and of a new
    process group; [None] is the [PermissionError] a process-group leader
    gets. *)
Definition setsid (ps : ProcState) : option ProcState :=
  if bool_decide (ps_pgid ps = ps_pid ps) then None
  else Some {| dispositions := dispositions ps; ps_pid := ps_pid ps;
               ps_sid := ps_pid ps; ps_pgid := ps_pid ps |}.

(** The names the loop of [pre_exec] goes through. *)
Definition reset_signals : list pystr :=
  [str "SIGPIPE"; str "SIGXFZ"; str "SIGXFSZ"].

(** [signal_module] gives the signal number of each signal name the
    [signal] module has on the platform: [hasattr(signal, sig)] and
    [getattr(signal, sig)]. *)
Definition pre_exec (signal_module : gmap pystr nat) (ps : ProcState)
  : option ProcState :=
  setsid
    (foldl (λ ps sig,
              match signal_module !! sig with
              | Some signum => signal_signal signum SIG_DFL ps
              | None => ps
              end)
       ps reset_signals).

(** ** A concrete platform for the examples *)

(** Strict UTF-8 as Python decodes it: shortest form only, no surrogates,
    nothing above U+10FFFF.  [None] stands for [UnicodeDecodeError]. *)
Definition in_range (lo hi : N) (b : byte) : bool :=
  (lo <=? Byte.to_N b) && (Byte.to_N b <=? hi).

Definition low6 (b : byte) : N := N.land (Byte.to_N b) 0x3F.

Fixpoint utf8_decode (bs : pybytes) : option pystr :=
  match bs with
  | [] => Some []
  | b0 :: r0 =>
      let n0 := Byte.to_N b0 in
      if n0 <? 0x80 then cons n0 <$> utf8_decode r0
      else if in_range 0xC2 0xDF b0 then
        match r0 with
        | b1 :: r1 =>
            if in_range 0x80 0xBF b1
            then cons (N.lor (N.shiftl (N.land n0 0x1F) 6) (low6 b1))
                   <$> utf8_decode r1
            else None
        | _ => None
        end
      else if in_range 0xE0 0xEF b0 then
        match r0 with
        | b1 :: b2 :: r2 =>
            let lo := if n0 =? 0xE0 then 0xA0 else 0x80 in
            let hi := if n0 =? 0xED then 0x9F else 0xBF in
            if in_range lo hi b1 && in_range 0x80 0xBF b2
            then cons (N.lor (N.shiftl (N.land n0 0x0F) 12)
                         (N.lor (N.shiftl (low6 b1) 6) (low6 b2)))
                   <$> utf8_decode r2
            else None
        | _ => None
        end
      else if in_range 0xF0 0xF4 b0 then
        match r0 with
        | b1 :: b2 :: b3 :: r3 =>
            let lo := if n0 =? 0xF0 then 0x90 else 0x80 in
            let hi := if n0 =? 0xF4 then 0x8F else 0xBF in
            if in_range lo hi b1 && in_range 0x80 0xBF b2
               && in_range 0x80 0xBF b3
            then cons (N.lor (N.shiftl (N.land n0 0x07) 18)
                         (N.lor (N.shiftl (low6 b1) 12)
                            (N.lor (N.shiftl (low6 b2) 6) (low6 b3))))
                   <$> utf8_decode r3
            else None
        | _ => None
        end
      else None
  end.

(** The first code point of a UTF-8 byte string and the bytes after it:
    one round of [utf8_decode]. *)
Definition utf8_decode_step (bs : pybytes) : option (N * pybytes) :=
  match bs with
  | [] => None
  | b0 :: r0 =>
      let n0 := Byte.to_N b0 in
      if n0 <? 0x80 then Some (n0, r0)
      else if in_range 0xC2 0xDF b0 then
        match r0 with
        | b1 :: r1 =>
            if in_range 0x80 0xBF b1
            then Some (N.lor (N.shiftl (N.land n0 0x1F) 6) (low6 b1), r1)
            else None
        | _ => None
        end
      else if in_range 0xE0 0xEF b0 then
        match r0 with
        | b1 :: b2 :: r2 =>
            let lo := if n0 =? 0xE0 then 0xA0 else 0x80 in
            let hi := if n0 =? 0xED then 0x9F else 0xBF in
            if in_range lo hi b1 && in_range 0x80 0xBF b2
            then Some (N.lor (N.shiftl (N.land n0 0x0F) 12)
                         (N.lor (N.shiftl (low6 b1) 6) (low6 b2)), r2)
            else None
        | _ => None
        end
      else if in_range 0xF0 0xF4 b0 then
        match r0 with
        | b1 :: b2 :: b3 :: r3 =>
            let lo := if n0 =? 0xF0 then 0x90 else 0x80 in
            let hi := if n0 =? 0xF4 then 0x8F else 0xBF in
            if in_range lo hi b1 && in_range 0x80 0xBF b2
               && in_range 0x80 0xBF b3
            then Some (N.lor (N.shiftl (N.land n0 0x07) 18)
                         (N.lor (N.shiftl (low6 b1) 12)
                            (N.lor (N.shiftl (low6 b2) 6) (low6 b3))), r3)
            else None
        | _ => None
        end
      else None
  end.

(** The encoding of [c], when there is one, decodes to [c] with nothing
    left over. *)
Definition utf8_char_roundtrips (c : N) : bool :=
  match utf8_encode_char c with
  | Some bs =>
      match utf8_decode_step bs with
      | Some (c', []) => c' =? c
      | _ => false
      end
  | None => true
  end.

(** [utf8_char_roundtrips] holds for every number below [n]. *)
Definition utf8_roundtrips_below (n : N) : bool :=
  N.peano_rect (λ _, bool) true (λ c acc, acc && utf8_char_roundtrips c) n.

(** Latin-1 maps every octet to the code point of the same number. *)
Definition latin1_decode (bs : pybytes) : pystr := map Byte.to_N bs.

(** A codec registry with the default ["utf-8"] and ["latin-1"]. *)
Definition py_decode (enc : pystr) (raw : pybytes) : decoded :=
  if bool_decide (enc = str "utf-8") then
    match utf8_decode raw with
    | Some s => Decoded s
    | None => Undecodable
    end
  else if bool_decide (enc = str "latin-1") then Decoded (latin1_decode raw)
  else UnknownEncoding.

(** A child that ignores how it is started. *)
Definition fixed_child (out : pybytes) (rc : Z) : Spawn → pybytes * Z :=
  λ _, (out, rc).

(** Context variables given directly as the mapping Airflow derives. *)
Definition ctx_vars (c : dict) (in_env_var_format : bool) : dict := c.

(** A child that leaves the file system as it found it. *)
Definition keeps_files (sp : Spawn) : filesystem * protections :=
  (sp_fs sp, sp_protected sp).



(** [chmod a-w .]: the child takes the write permission of its working
    directory away, so that its entries cannot be unlinked. *)
Definition write_protects_cwd (sp : Spawn) : filesystem * protections :=
  (sp_fs sp, <[script_of sp := ReadOnly]> (sp_protected sp)).

(** The platform of the examples: the child's behaviour is given; a tree
    removal that fails has reached every entry. *)
Definition py_platform_with (files : Spawn → filesystem * protections)
    (out : pybytes) (rc : Z) : Platform :=
  {| codec_decode := py_decode; bash := fixed_child out rc;
     bash_files := files; rmtree_reached := λ _ _ _, true; context := dict;
     context_to_airflow_vars := ctx_vars |}.

Definition py_platform (out : pybytes) (rc : Z) : Platform :=
  py_platform_with keeps_files out rc.

Definition mk_operator (cmd : pystr) (e : option loc) (xcom_push : bool)
    (enc task : pystr) : Operator :=
  {| bash_command := cmd; env := e; xcom_push_flag := xcom_push;
     output_encoding := enc; task_id := task; lineage_data := None;
     sub_process := None |}.

(** The address of [os.environ] in the examples. *)
Definition environ_loc : loc := 7%nat.

(** A state with the dict objects [h] and the process environment [e];
    nothing is protected. *)
Definition mk_state (o : Operator) (h : gmap loc dict) (e : dict) : State :=
  {| self := o; heap := <[environ_loc := e]> h; os_environ := environ_loc;
     tempdir := str "/tmp"; fs := {[ str "/tmp" := Dir ]}; protected := ∅;
     rng := [str "k3x9"; str "q0w7"]; log := []; procs := [] |}.

Definition LF : string := String (Ascii.ascii_of_nat 10) EmptyString.

Definition cmd_one_two : pystr :=
  str ("echo one" +:+ LF +:+ "echo two" +:+ LF +:+ "exit 0").

Definition null_process : Process :=
  {| p_spawn := {| sp_args := []; sp_cwd := []; sp_env := ∅; sp_fs := ∅;
                   sp_protected := ∅ |};
     p_out := []; p_rc := 0; p_fs := ∅; p_protected := ∅ |}.

(** The one child an example run has started. *)
Definition the_child (r : outcome (option (list pystr)) * State) : Process :=
  match procs r.2 with
  | [pr] => pr
  | _ => null_process
  end.

(** *** Example invocations *)

Definition out_one_two : pybytes := bytes_lit ("one" +:+ LF +:+ "two" +:+ LF).

Definition parent_environ : dict := {[ str "HOME" := str "/root" ]}.

Definition dag_vars : dict := {[ str "AIRFLOW_CTX_DAG_ID" := str "d" ]}.

(** [env=None]: the child inherits the process environment. *)
Definition st_inherit (xcom_push : bool) : State :=
  mk_state (mk_operator cmd_one_two None xcom_push (str "utf-8") (str "t"))
    ∅ parent_environ.

Definition run_one_two (xcom_push : bool) (rc : Z)
  : outcome (option (list pystr)) * State :=
  execute (P := py_platform out_one_two rc) dag_vars
    (st_inherit xcom_push).

(** [env={"AIRFLOW_CTX_DAG_ID": "mine", "A": "1"}], a dict object at
    address 0 of the heap. *)
Definition supplied_env : dict :=
  {[ str "AIRFLOW_CTX_DAG_ID" := str "mine"; str "A" := str "1" ]}.

Definition st_supplied : State :=
  mk_state (mk_operator cmd_one_two (Some 0%nat) true (str "utf-8") (str "t"))
    {[ 0%nat := supplied_env ]} parent_environ.

Definition run_supplied : outcome (option (list pystr)) * State :=
  execute (P := py_platform out_one_two 0) dag_vars
    st_supplied.

(** [env={"A": "1"}]. *)
Definition env_A : dict := {[ str "A" := str "1" ]}.

Definition st_env_A : State :=
  mk_state (mk_operator cmd_one_two (Some 0%nat) true (str "utf-8") (str "t"))
    {[ 0%nat := env_A ]} parent_environ.

Definition run_env_A : outcome (option (list pystr)) * State :=
  execute (P := py_platform out_one_two 0) dag_vars st_env_A.

(** A command that prints a line with two trailing blanks. *)
Definition out_trailing : pybytes := bytes_lit ("one  " +:+ LF).

Definition st_trailing : State :=
  mk_state (mk_operator (str "echo 'one  '") None true (str "utf-8") (str "t"))
    ∅ parent_environ.

Definition run_trailing : outcome (option (list pystr)) * State :=
  execute (P := py_platform out_trailing 0) dag_vars
    st_trailing.

(** A command that prints the octet 0xFF, which is not UTF-8, and exits
    with the given status. *)
Definition out_undecodable : pybytes := [xff; NL].

Definition st_undecodable : State :=
  mk_state (mk_operator (str "printf '\377\n'") None false (str "utf-8") (str "t"))
    ∅ parent_environ.

Definition run_undecodable (rc : Z) : outcome (option (list pystr)) * State :=
  execute (P := py_platform out_undecodable rc) dag_vars
    st_undecodable.

(** A command that prints a line ending in a blank and a tab. *)
Definition out_blank_tab : pybytes := [x61; x20; x09; NL].

Definition run_blank_tab : outcome (option (list pystr)) * State :=
  execute (P := py_platform out_blank_tab 0) dag_vars
    (st_inherit true).



(** A child that writes nothing, under an encoding the registry does not
    know. *)
Definition st_silent (xcom_push : bool) : State :=
  mk_state (mk_operator (str "true") None xcom_push (str "no-such-codec")
              (str "t"))
    ∅ parent_environ.

Definition run_silent (xcom_push : bool) : outcome (option (list pystr)) * State :=
  execute (P := py_platform [] 0) dag_vars (st_silent xcom_push).

(** Output whose last line has no newline. *)
Definition out_unterminated : pybytes := bytes_lit ("one" +:+ LF +:+ "two").

Definition run_unterminated : outcome (option (list pystr)) * State :=
  execute (P := py_platform out_unterminated 0) dag_vars (st_inherit true).

(** A command text with a lone surrogate. *)
Definition st_surrogate : State :=
  mk_state (mk_operator (str "echo " ++ [0xD800]) None true (str "utf-8")
              (str "t"))
    ∅ parent_environ.

Definition run_surrogate : outcome (option (list pystr)) * State :=
  execute (P := py_platform out_one_two 0) dag_vars st_surrogate.

(** Two dict objects on the heap, [self.env] refers to the first. *)
Definition st_two_dicts : State :=
  mk_state (mk_operator cmd_one_two (Some 0%nat) true (str "utf-8") (str "t"))
    {[ 0%nat := env_A; 1%nat := supplied_env ]} parent_environ.

Definition run_two_dicts : outcome (option (list pystr)) * State :=
  execute (P := py_platform out_one_two 0) dag_vars st_two_dicts.

(** Two runs of the same operator, the second with another context; four
    temporary names are on offer. *)
Definition try_vars : dict := {[ str "AIRFLOW_CTX_TRY_NUMBER" := str "2" ]}.

Definition st_retry : State :=
  set_rng [str "k3x9"; str "q0w7"; str "m1n2"; str "z8y7"] st_env_A.

Definition run_retry : outcome (option (list pystr)) * State :=
  execute (P := py_platform out_one_two 0) try_vars
    (execute (P := py_platform out_one_two 0) dag_vars st_retry).2.

(** The last child in the process table of an example run. *)
Definition last_child (r : outcome (option (list pystr)) * State) : Process :=
  default null_process (last (procs r.2)).

(** Two runs of an operator without a supplied mapping. *)
Definition st_retry_inherit : State :=
  set_rng [str "k3x9"; str "q0w7"; str "m1n2"; str "z8y7"] (st_inherit true).

Definition run_retry_inherit : outcome (option (list pystr)) * State :=
  execute (P := py_platform out_one_two 0) try_vars
    (execute (P := py_platform out_one_two 0) dag_vars st_retry_inherit).2.



(** [self.env] is [os.environ] itself. *)
Definition st_env_is_environ : State :=
  mk_state (mk_operator cmd_one_two (Some environ_loc) true (str "utf-8")
              (str "t"))
    {[ 0%nat := env_A ]} parent_environ.

Definition run_env_is_environ : outcome (option (list pystr)) * State :=
  execute (P := py_platform out_one_two 0) dag_vars st_env_is_environ.





(** A command that write-protects its working directory:
    [chmod a-w .; echo one]. *)
Definition st_write_protected : State :=
  mk_state (mk_operator (str "chmod a-w .; echo one") None true
              (str "utf-8") (str "t"))
    ∅ parent_environ.

Definition run_write_protected : outcome (option (list pystr)) * State :=
  execute (P := py_platform_with write_protects_cwd (bytes_lit ("one" +:+ LF)) 0)
    dag_vars st_write_protected.




(** The [signal] module of Linux, in part: there is no [SIGXFZ]. *)
Definition linux_signals : gmap pystr nat :=
  {[ str "SIGINT" := 2%nat; str "SIGPIPE" := 13%nat; str "SIGXFSZ" := 25%nat ]}.

(** A forked child of a Python process: [SIGPIPE] and [SIGXFSZ] ignored as
    Python sets them at start-up, a handler on [SIGINT]; in the session and
    process group of its parent. *)
Definition forked_child : ProcState :=
  {| dispositions := {[ 13%nat := SIG_IGN; 25%nat := SIG_IGN;
                        2%nat := PyHandler 0 ]};
     ps_pid := 4321; ps_sid := 4000; ps_pgid := 4000 |}.

(** * Properties *)

(** ** Strings and streams *)

Lemma rstrip_no_trailing_space s : no_trailing_space (rstrip s).
Proof.
  induction s as [|c s IH]; intros x; cbn [rstrip].
  - discriminate.
  - destruct (rstrip s) as [|y r] eqn:E.
    + destruct (isspace c) eqn:Hc; [discriminate|].
      cbn. intros [= <-]. exact Hc.
    + intros H. apply IH. exact H.
Qed.

(** [rstrip] only removes a suffix, and the suffix is whitespace; with
    [rstrip_no_trailing_space] this determines it. *)
Lemma rstrip_suffix s :
  ∃ ws, s = rstrip s ++ ws ∧ Forall (λ c, isspace c = true) ws.
Proof.
  induction s as [|c s (ws & Hs & Hws)]; [by exists []|].
  cbn [rstrip]. destruct (rstrip s) as [|y r] eqn:E.
  - destruct (isspace c) eqn:Hc.
    + exists (c :: ws). cbn in Hs. subst s. split; [done|by constructor].
    + exists ws. cbn in *. by subst s.
  - exists ws. split; [|done]. cbn. by rewrite Hs at 1.
Qed.

Lemma rstrip_all_space ws :
  Forall (λ c, isspace c = true) ws → rstrip ws = [].
Proof.
  induction 1 as [|c ws Hc _ IH]; [done|].
  cbn [rstrip]. by rewrite IH, Hc.
Qed.

Lemma rstrip_app_space t ws :
  Forall (λ c, isspace c = true) ws → rstrip (t ++ ws) = rstrip t.
Proof.
  intros Hws. induction t as [|c t IH]; cbn [app rstrip].
  - by apply rstrip_all_space.
  - by rewrite IH.
Qed.

Lemma readlines_readline s :
  readlines s =
  match s with
  | [] => []
  | _ :: _ => (readline s).1 :: readlines (readline s).2
  end.
Proof.
  induction s as [|b s IH]; [done|].
  cbn [readlines readline]. destruct (Byte.eqb b NL); [done|].
  rewrite IH. destruct s as [|b' s]; [done|].
  by destruct (readline (b' :: s)).
Qed.

Lemma readlines_line l rest :
  NL ∉ l → readlines (l ++ NL :: rest) = (l ++ [NL]) :: readlines rest.
Proof.
  induction l as [|b l IH]; intros Hl; [done|].
  cbn [app readlines].
  destruct (Byte.eqb b NL) eqn:Hb.
  - apply Byte.byte_dec_bl in Hb. subst. set_solver.
  - rewrite IH; [done|]. set_solver.
Qed.

Lemma readlines_terminated raws :
  Forall (λ l, NL ∉ l) raws →
  readlines (concat (map (λ l, l ++ [NL]) raws)) = map (λ l, l ++ [NL]) raws.
Proof.
  induction 1 as [|l raws Hl _ IH]; [done|].
  cbn [map concat]. rewrite <- app_assoc. cbn [app].
  by rewrite readlines_line, IH.
Qed.

(** ** UTF-8: the strict decoder reads back what the encoder writes *)

Lemma utf8_encode_char_None c :
  utf8_encode_char c = None ↔ is_surrogate c = true ∨ 0x110000 ≤ c.
Proof.
  unfold utf8_encode_char, is_surrogate.
  destruct (c <? 0x80) eqn:H1; [apply N.ltb_lt in H1|apply N.ltb_ge in H1].
  { split; [done|]. intros [H|H]; [|lia].
    apply andb_true_iff in H as [H _]. apply N.leb_le in H. lia. }
  destruct (c <? 0x800) eqn:H2; [apply N.ltb_lt in H2|apply N.ltb_ge in H2].
  { split; [done|]. intros [H|H]; [|lia].
    apply andb_true_iff in H as [H _]. apply N.leb_le in H. lia. }
  destruct (c <? 0x10000) eqn:H3; [apply N.ltb_lt in H3|apply N.ltb_ge in H3].
  { destruct ((0xD800 <=? c) && (c <=? 0xDFFF)) eqn:Hs.
    - split; auto.
    - split; [done|]. intros [H|H]; [done|lia]. }
  destruct (c <? 0x110000) eqn:H4; [apply N.ltb_lt in H4|apply N.ltb_ge in H4].
  { split; [done|]. intros [H|H]; [|lia].
    apply andb_true_iff in H as [_ H]. apply N.leb_le in H. lia. }
  split; auto.
Qed.

Lemma utf8_encode_None s :
  utf8_encode s = None
  ↔ Exists (λ c, is_surrogate c = true ∨ 0x110000 ≤ c) s.
Proof.
  induction s as [|c s IH]; cbn [utf8_encode].
  - split; [done|]. by intros ?%Exists_nil.
  - rewrite Exists_cons, <- IH, <- utf8_encode_char_None.
    destruct (utf8_encode_char c), (utf8_encode s); intuition congruence.
Qed.

Lemma utf8_decode_unfold bs :
  utf8_decode bs =
  match bs with
  | [] => Some []
  | _ :: _ =>
      match utf8_decode_step bs with
      | Some (c, r) => cons c <$> utf8_decode r
      | None => None
      end
  end.
Proof.
  destruct bs as [|b0 r0]; [done|].
  cbn [utf8_decode utf8_decode_step]. cbv zeta.
  repeat (case_match; try done).
Qed.

Lemma utf8_decode_step_app bs c rest :
  utf8_decode_step bs = Some (c, []) →
  utf8_decode_step (bs ++ rest) = Some (c, rest).
Proof.
  destruct bs as [|b0 [|b1 [|b2 [|b3 [|b4 bs]]]]];
    cbn [utf8_decode_step app]; cbv zeta;
    repeat (case_match; try done); by intros [= <-].
Qed.

Lemma utf8_roundtrips_below_spec n :
  utf8_roundtrips_below n = true →
  ∀ c, c < n → utf8_char_roundtrips c = true.
Proof.
  unfold utf8_roundtrips_below.
  induction n as [|n IH] using N.peano_ind; intros H c Hc; [lia|].
  rewrite N.peano_rect_succ in H. apply andb_true_iff in H as [H1 H2].
  destruct (decide (c = n)) as [->|Hne]; [done|].
  apply IH; [done|lia].
Qed.

Lemma utf8_all_chars_roundtrip : utf8_roundtrips_below 0x110000 = true.
Proof. vm_compute. reflexivity. Qed.

Lemma utf8_encode_char_roundtrip c bs rest :
  utf8_encode_char c = Some bs →
  bs ≠ [] ∧ utf8_decode_step (bs ++ rest) = Some (c, rest).
Proof.
  intros Henc.
  assert (c < 0x110000) as Hc.
  { destruct (N.lt_ge_cases c 0x110000) as [|Hge]; [done|].
    assert (utf8_encode_char c = None) as Hnone
      by (apply utf8_encode_char_None; by right).
    congruence. }
  pose proof (utf8_roundtrips_below_spec _ utf8_all_chars_roundtrip c Hc) as Hrt.
  unfold utf8_char_roundtrips in Hrt. rewrite Henc in Hrt.
  destruct (utf8_decode_step bs) as [[c' [|]]|] eqn:Hstep; try done.
  apply N.eqb_eq in Hrt as ->. split.
  - by destruct bs.
  - by apply utf8_decode_step_app.
Qed.

Lemma utf8_encode_decode s bs :
  utf8_encode s = Some bs → utf8_decode bs = Some s.
Proof.
  revert bs. induction s as [|c s IH]; intros bs; cbn [utf8_encode].
  - by intros [= <-].
  - destruct (utf8_encode_char c) as [cb|] eqn:Hc; [|done].
    destruct (utf8_encode s) as [r|]; [|done]. intros [= <-].
    destruct (utf8_encode_char_roundtrip c cb r Hc) as [Hne Hstep].
    rewrite utf8_decode_unfold, Hstep.
    destruct (cb ++ r) eqn:E; [by destruct cb|].
    by rewrite (IH r eq_refl).
Qed.

(** ** Temporary names and paths *)

Lemma pick_name_unused files base cands p cs :
  pick_name files base cands = Some (p, cs) →
  files !! p = None ∧ ∃ c, p = base ++ c.
Proof.
  induction cands as [|c cands IH]; [done|].
  cbn [pick_name]. destruct (files !! (base ++ c)) eqn:E; [done|].
  intros [= <- <-]. eauto.
Qed.

Lemma starts_with_app pre s : starts_with pre (pre ++ s) = true.
Proof.
  induction pre as [|c pre IH]; [done|].
  cbn. by rewrite N.eqb_refl, IH.
Qed.

Lemma under_self d : under d d = true.
Proof. unfold under. by rewrite bool_decide_eq_true_2. Qed.

Lemma under_child d name c : under d (path_join d name ++ c) = true.
Proof.
  unfold under, path_join.
  replace ((d ++ SEP ++ name) ++ c) with ((d ++ SEP) ++ name ++ c)
    by (by rewrite <- !app_assoc).
  rewrite starts_with_app. apply orb_true_r.
Qed.



Lemma rmtree_fs_lookup_ne d files p :
  under d p = false → rmtree_fs d files !! p = files !! p.
Proof.
  intros Hp. unfold rmtree_fs. destruct (files !! p) as [n|] eqn:E.
  - apply map_lookup_filter_Some. by split.
  - apply map_lookup_filter_None. by left.
Qed.

Lemma rmtree_partial_lookup_ne reached d prot files p :
  under d p = false → rmtree_partial reached d prot files !! p = files !! p.
Proof.
  intros Hp. unfold rmtree_partial. destruct (files !! p) as [n|] eqn:E.
  - apply map_lookup_filter_Some. split; [done|]. cbn. intros (H & _).
    congruence.
  - apply map_lookup_filter_None. by left.
Qed.


(** ** What can be removed *)

Lemma unprotect_lookup p prot q :
  under p q = true → unprotect p prot !! q = None.
Proof.
  intros Hq. unfold unprotect. apply map_lookup_filter_None. right.
  intros x _. cbn. by rewrite Hq.
Qed.

Lemma unprotect_lookup_Some p prot q x :
  unprotect p prot !! q = Some x → prot !! q = Some x ∧ under p q = false.
Proof. unfold unprotect. by intros ?%map_lookup_filter_Some. Qed.

Lemma removable_tree_unprotect d files prot :
  removable_tree d files (unprotect d prot).
Proof.
  intros p n _ Hp. by rewrite unprotect_lookup.
Qed.

Lemma removable_tree_unprotect2 d f files prot :
  removable_tree d files (unprotect f (unprotect d prot)).
Proof.
  intros p n _ Hp [H _]%unprotect_lookup_Some.
  by rewrite unprotect_lookup in H.
Qed.

Lemma unlink_error_new f c files prot :
  unlink_error (<[f := File c]> files) (unprotect f prot) f = None.
Proof.
  unfold unlink_error. rewrite lookup_insert_eq.
  rewrite unprotect_lookup by apply under_self.
  rewrite bool_decide_eq_false_2; [done|]. by intros [? ?].
Qed.

(** Unlinking an entry that is not protected does not change whether the
    tree can be removed. *)
Lemma removable_tree_delete d f files prot :
  removable_tree d files prot → removable_tree d (delete f files) prot.
Proof.
  intros H p n Hp. apply lookup_delete_Some in Hp as [_ Hp]. by eapply H.
Qed.

Lemma removable_tree_after_unlink d f files prot :
  removable_tree d (fs_after_unlink f files prot) prot
  ↔ removable_tree d files prot.
Proof.
  unfold fs_after_unlink.
  destruct (unlink_error files prot f) as [e|] eqn:E; [done|].
  split; [|apply removable_tree_delete].
  intros H p n Hp Hu. destruct (decide (p = f)) as [->|Hne].
  - unfold unlink_error in E. rewrite Hp in E. destruct n; [done|].
    case_bool_decide as Hprot; [done|]. intros Hl. apply Hprot.
    by rewrite Hl.
  - apply (H p n); [|done]. by rewrite lookup_delete_ne.
Qed.

Ltac msimpl :=
  cbv beta iota zeta delta
    [mbind M_bind mret M_ret gets modify raise log_info log_debug
     try_finally with_].

Ltac st_simpl :=
  cbn [self heap os_environ tempdir fs protected rng log procs
       add_log set_fs set_protected set_self set_heap set_rng add_proc add_logs
       with_sub_process with_lineage_data
       bash_command env xcom_push_flag output_encoding task_id lineage_data
       sub_process pid returncode p_spawn p_out p_rc p_fs p_protected
       sp_args sp_cwd sp_env sp_fs sp_protected deref environ fst snd] in *.

Lemma add_logs_nil st : add_logs [] st = st.
Proof. destruct st; unfold add_logs; simpl. by rewrite app_nil_r. Qed.

Lemma add_logs_cons r rs st : add_logs (r :: rs) st = add_logs rs (add_log r st).
Proof. unfold add_logs, add_log; simpl. by rewrite <- app_assoc. Qed.

Lemma lookup_snoc_length {A} (l : list A) (x : A) : (l ++ [x]) !! length l = Some x.
Proof. by rewrite list_lookup_middle. Qed.

Lemma State_eq (s1 s2 : State) :
  self s1 = self s2 → heap s1 = heap s2 → os_environ s1 = os_environ s2 →
  tempdir s1 = tempdir s2 → fs s1 = fs s2 → protected s1 = protected s2 →
  rng s1 = rng s2 → log s1 = log s2 → procs s1 = procs s2 → s1 = s2.
Proof. destruct s1, s2; cbn; congruence. Qed.

(** ** The method *)

Section Correctness.
Context {P : Platform}.

Lemma loop_body_eq buf raw st :
  loop_body buf raw st =
  match codec_decode (output_encoding (self st)) raw with
  | Decoded s =>
      (Return (if xcom_push_flag (self st)
               then (λ b, b ++ [rstrip s]) <$> buf else buf),
       add_log (LogLine (rstrip s)) st)
  | Undecodable => (Raise UnicodeDecodeError, st)
  | UnknownEncoding => (Raise LookupError, st)
  end.
Proof.
  unfold loop_body, decode. msimpl.
  by destruct (codec_decode _ raw).
Qed.

Lemma for_loop_body lines buf st :
  for_ lines (loop_body) buf st =
  let '(ls, e) := scan (output_encoding (self st)) lines in
  (match e with
   | None => Return (if xcom_push_flag (self st)
                     then (λ b, b ++ ls) <$> buf else buf)
   | Some x => Raise x
   end, add_logs (map LogLine ls) st).
Proof.
  revert buf st. induction lines as [|raw rest IH]; intros buf st.
  - cbn [for_ scan map]. rewrite add_logs_nil. msimpl. f_equal. f_equal.
    destruct (xcom_push_flag _), buf; simpl; by rewrite ?app_nil_r.
  - cbn [for_ scan]. unfold mbind, M_bind. rewrite loop_body_eq.
    destruct (codec_decode _ raw) as [s| |].
    + rewrite IH. cbn [self add_log output_encoding xcom_push_flag].
      destruct (scan _ rest) as [ls e]. cbn [map].
      rewrite add_logs_cons. f_equal.
      destruct e; [done|]. f_equal.
      destruct (xcom_push_flag _), buf; simpl; by rewrite <- ?app_assoc.
    + by rewrite add_logs_nil.
    + by rewrite add_logs_nil.
Qed.

Lemma run_script_eq d e buf f st :
  run_script d e buf f st =
  run_script_nf d e buf f st.
Proof.
  unfold run_script, run_script_nf, bytes_utf8. msimpl.
  destruct (utf8_encode _) as [data|]; [|done].
  unfold write_flush, Popen_call, stdout_lines, wait, get_returncode, abspath,
    deref.
  msimpl. st_simpl.
  destruct (bash _) as [out rc] eqn:Hb.
  destruct (bash_files _) as [files prot] eqn:Hf. st_simpl.
  rewrite lookup_snoc_length. rewrite for_loop_body. st_simpl.
  destruct (scan _ _) as [ls [x|]]; [done|].
  st_simpl. rewrite lookup_snoc_length. st_simpl.
  cbn [default from_option id]. by destruct (bool_decide (rc ≠ 0%Z)).
Qed.

Ltac log_norm :=
  unfold log_prologue; rewrite <- ?app_assoc; cbn [app]; rewrite ?app_nil_r.

Ltac st_eq :=
  apply State_eq; st_simpl; rewrite ?alter_insert_eq; cbn [append_file app];
  try reflexivity; log_norm; reflexivity.

Lemma execute_eq ctx st : execute ctx st = execute_nf ctx st.
Proof.
  unfold execute, execute_nf, heap_after, child_env.
  unfold TemporaryDirectory_enter, NamedTemporaryFile_enter, make_temp,
    NamedTemporaryFile_exit, unlink, rmtree, environ_copy, dict_update.
  msimpl. st_simpl.
  destruct (env (self st)) as [l|] eqn:Henv; msimpl; st_simpl.
  - destruct (pick_name _ _ (rng st)) as [[d cs]|]; [|f_equal; st_eq].
    st_simpl.
    destruct (pick_name _ _ cs) as [[f cs']|].
    2:{ st_simpl.
        rewrite (bool_decide_eq_true_2 _ (removable_tree_unprotect _ _ _)).
        f_equal; st_eq. }
    st_simpl. rewrite run_script_eq. unfold run_script_nf, deref. st_simpl.
    destruct (utf8_encode _) as [data|].
    2:{ st_simpl. rewrite unlink_error_new. st_simpl.
        rewrite (bool_decide_eq_true_2 _ (removable_tree_unprotect2 _ _ _ _)).
        f_equal; st_eq. }
    cbv zeta. st_simpl. rewrite alter_insert_eq, lookup_alter_eq.
    cbn [append_file app].
    unfold outcome_of, exit_error_of, exit_error, fs_after_exits,
      fs_after_unlink, body_outcome, log_script, popen_after, child, script_of.
    st_simpl. cbn [lookup list_lookup default from_option id].
    replace (default ∅ ((λ d0 : dict, context_to_airflow_vars ctx true ∪ d0)
                          <$> heap st !! l))
      with (from_option (λ d0 : dict, context_to_airflow_vars ctx true ∪ d0)
              ∅ (heap st !! l))
      by (by destruct (heap st !! l)).
    destruct (scan _ _) as [ls [x|]]; st_simpl.
    + destruct (unlink_error _ _ f) as [e1|]; st_simpl;
        destruct (bool_decide (removable_tree _ _ _)); f_equal; st_eq.
    + destruct (bool_decide (_ ≠ _));
        destruct (unlink_error _ _ f) as [e1|]; st_simpl;
        destruct (bool_decide (removable_tree _ _ _)); st_simpl;
        try (f_equal; st_eq);
        destruct (xcom_push_flag (self st)); msimpl; st_simpl; f_equal; st_eq.
  - destruct (pick_name _ _ (rng st)) as [[d cs]|]; [|f_equal; st_eq].
    st_simpl.
    destruct (pick_name _ _ cs) as [[f cs']|].
    2:{ st_simpl.
        rewrite (bool_decide_eq_true_2 _ (removable_tree_unprotect _ _ _)).
        f_equal; st_eq. }
    st_simpl. rewrite run_script_eq. unfold run_script_nf, deref. st_simpl.
    destruct (utf8_encode _) as [data|].
    2:{ st_simpl. rewrite unlink_error_new. st_simpl.
        rewrite (bool_decide_eq_true_2 _ (removable_tree_unprotect2 _ _ _ _)).
        f_equal; st_eq. }
    cbv zeta. st_simpl.
    rewrite !alter_insert_eq, lookup_insert_eq.
    cbn [append_file app default from_option].
    unfold outcome_of, exit_error_of, exit_error, fs_after_exits,
      fs_after_unlink, body_outcome, log_script, popen_after, child, script_of.
    st_simpl. cbn [lookup list_lookup default from_option id].
    destruct (scan _ _) as [ls [x|]]; st_simpl.
    + destruct (unlink_error _ _ f) as [e1|]; st_simpl;
        destruct (bool_decide (removable_tree _ _ _)); f_equal; st_eq.
    + destruct (bool_decide (_ ≠ _));
        destruct (unlink_error _ _ f) as [e1|]; st_simpl;
        destruct (bool_decide (removable_tree _ _ _)); st_simpl;
        try (f_equal; st_eq);
        destruct (xcom_push_flag (self st)); msimpl; st_simpl; f_equal; st_eq.
Qed.

Lemma scan_captured enc lines ls :
  scan enc lines = (ls, None) ↔
  Forall2 (captured enc) lines ls.
Proof.
  revert ls. induction lines as [|raw rest IH]; intros ls; cbn [scan].
  - split.
    + intros [= <-]. constructor.
    + intros H. by inversion H.
  - split.
    + destruct (codec_decode enc raw) as [t| |] eqn:Ht; [|done|done].
      destruct (scan _ rest) as [ls' e] eqn:Hs. intros [= <- ->].
      constructor; [by exists t|]. by apply IH.
    + intros H. inversion H as [|? l ? ls' [t [Ht ->]] Hrest]; subst.
      rewrite Ht. apply IH in Hrest. by rewrite Hrest.
Qed.


Lemma scan_stripped enc lines ls e :
  scan enc lines = (ls, e) → Forall no_trailing_space ls.
Proof.
  revert ls. induction lines as [|raw rest IH]; intros ls; cbn [scan].
  - intros [= <- <-]. constructor.
  - destruct (codec_decode enc raw); [|intros [= <- <-]; constructor..].
    destruct (scan _ rest) as [ls' e']. intros [= <- <-].
    constructor; [apply rstrip_no_trailing_space | eauto].
Qed.

Lemma child_env_eq ctx st :
  default ∅ (heap_after ctx st
               !! env_ref_of st) =
  child_env ctx st.
Proof.
  unfold heap_after, child_env, env_ref_of.
  destruct (env (self st)) as [l|].
  - rewrite lookup_alter_eq. by destruct (heap st !! l).
  - by rewrite lookup_insert_eq.
Qed.

Ltac exec_cases ctx st :=
  rewrite ?execute_eq in *; unfold execute_nf, spawn_request in *;
  destruct (pick_name (fs st) (path_join (tempdir st) (str "airflowtmp"))
              (rng st)) as [[?d ?cs]|] eqn:?Hdir;
  [ destruct (pick_name (<[_ := Dir]> (fs st)) _ _) as [[?f ?cs]|] eqn:?Hfile;
    [ destruct (utf8_encode (bash_command (self st))) as [?data|] eqn:?Henc
    | ]
  | ];
  cbv zeta in *;
  cbn [fst snd self heap os_environ tempdir fs protected rng log procs] in *.

Lemma exec_spawned ctx st sp :
  spawn_request ctx st = Some sp →
  (execute ctx st).1 = outcome_of (self st) (child sp)
  ∧ procs (execute ctx st).2 = procs st ++ [child sp].
Proof. intros H. exec_cases ctx st; try done. by injection H as <-. Qed.

Lemma exec_unspawned ctx st :
  spawn_request ctx st = None →
  procs (execute ctx st).2 = procs st
  ∧ ((execute ctx st).1 = Raise FileExistsError
     ∨ (execute ctx st).1 = Raise UnicodeEncodeError).
Proof. intros H. exec_cases ctx st; try done; auto. Qed.

(** Exactly one child per invocation that gets to [Popen], none otherwise;
    a child in the process table is the one [spawn_request] describes. *)
Lemma exec_procs_inv ctx st pr :
  procs (execute ctx st).2 = procs st ++ [pr] →
  ∃ sp, spawn_request ctx st = Some sp
        ∧ pr = child sp.
Proof.
  intros H.
  destruct (spawn_request ctx st) as [sp|] eqn:E.
  - exists sp. split; [done|].
    apply exec_spawned in E as [_ E]. rewrite E in H.
    apply app_inv_head in H. by injection H.
  - apply exec_unspawned in E as [E _]. rewrite E in H.
    apply (f_equal length) in H. rewrite length_app in H. cbn in H. lia.
Qed.

Lemma exec_outcome ctx st pr :
  procs (execute ctx st).2 = procs st ++ [pr] →
  (execute ctx st).1 = outcome_of (self st) pr.
Proof.
  intros (sp & Hsp & ->)%exec_procs_inv. by apply exec_spawned in Hsp as [? _].
Qed.

Lemma exec_return_inv ctx st r :
  (execute ctx st).1 = Return r →
  ∃ pr, procs (execute ctx st).2 = procs st ++ [pr].
Proof.
  intros H.
  destruct (spawn_request ctx st) as [sp|] eqn:E.
  - exists (child sp). by apply exec_spawned in E as [_ ?].
  - apply exec_unspawned in E as [_ [E|E]]; rewrite E in H; discriminate.
Qed.

Lemma exec_heap ctx st :
  heap (execute ctx st).2 = heap_after ctx st.
Proof. exec_cases ctx st; done. Qed.

Lemma exec_os_environ ctx st : os_environ (execute ctx st).2 = os_environ st.
Proof. exec_cases ctx st; done. Qed.

(** The dict objects other than the one the local variable [env] refers
    to are as before. *)
Lemma exec_heap_frame (ctx : context) (st : State) (l : loc) :
  env (self st) ≠ Some l →
  l ∈ dom (heap st) ∪ {[os_environ st]} →
  heap (execute ctx st).2 !! l = heap st !! l.
Proof.
  intros Hne Hl. rewrite exec_heap. unfold heap_after.
  destruct (env (self st)) as [l'|].
  - apply lookup_alter_ne. congruence.
  - apply lookup_insert_ne. intros <-. by apply is_fresh in Hl.
Qed.

Lemma exec_environ_frame (ctx : context) (st : State) :
  env (self st) ≠ Some (os_environ st) →
  environ (execute ctx st).2 = environ st.
Proof.
  intros Hne. unfold environ, deref. rewrite exec_os_environ.
  rewrite exec_heap_frame; [done|done|].
  apply elem_of_union_r. by apply elem_of_singleton.
Qed.

(** A supplied mapping is updated in place: the dict object [self.env]
    refers to holds the context variables afterwards. *)
Lemma exec_supplied_env_updated (ctx : context) (st : State) (l : loc)
    (m : dict) :
  env (self st) = Some l →
  heap st !! l = Some m →
  heap (execute ctx st).2 !! l = Some (context_to_airflow_vars ctx true ∪ m).
Proof.
  intros Henv Hm. rewrite exec_heap. unfold heap_after. rewrite Henv.
  by rewrite lookup_alter_eq, Hm.
Qed.

(** [execute] assigns [self.lineage_data] and [self.sub_process] and no
    other attribute. *)
Lemma exec_self_frame ctx st :
  let o := self st in
  let o' := self (execute ctx st).2 in
  bash_command o' = bash_command o ∧ env o' = env o
  ∧ xcom_push_flag o' = xcom_push_flag o
  ∧ output_encoding o' = output_encoding o ∧ task_id o' = task_id o
  ∧ lineage_data o' = Some (bash_command o).
Proof. exec_cases ctx st; done. Qed.

Lemma exec_log ctx st :
  ∃ new, log (execute ctx st).2 = log st ++ log_prologue ctx st ++ new
    ∧ match spawn_request ctx st with
      | Some sp =>
          ∃ f, sp_args sp = [str "bash"; f]
               ∧ new = log_script (self st) f (child sp)
      | None => new = []
      end.
Proof. exec_cases ctx st; eauto. Qed.


Lemma spawn_request_inv ctx st sp :
  spawn_request ctx st = Some sp →
  ∃ d cs f cs' data,
    pick_name (fs st) (path_join (tempdir st) (str "airflowtmp")) (rng st)
      = Some (d, cs)
    ∧ pick_name (<[d := Dir]> (fs st)) (path_join d (task_id (self st))) cs
      = Some (f, cs')
    ∧ utf8_encode (bash_command (self st)) = Some data
    ∧ sp = {| sp_args := [str "bash"; f]; sp_cwd := d;
              sp_env := child_env ctx st;
              sp_fs := <[f := File data]> (<[d := Dir]> (fs st));
              sp_protected := unprotect f (unprotect d (protected st)) |}.
Proof.
  unfold spawn_request.
  destruct (pick_name _ _ (rng st)) as [[d cs]|] eqn:Hd; [|done].
  destruct (pick_name _ _ cs) as [[f cs']|] eqn:Hf; [|done].
  destruct (utf8_encode _) as [data|] eqn:He; [|done].
  intros [= <-]. by exists d, cs, f, cs', data.
Qed.

Lemma scan_total enc lines :
  Forall (λ raw, ∃ t, codec_decode enc raw = Decoded t) lines →
  ∃ ls, scan enc lines = (ls, None).
Proof.
  induction 1 as [|raw rest [t Ht] _ [ls IH]]; cbn [scan]; [by eexists|].
  rewrite Ht, IH. by eexists.
Qed.

(** When the child has left its script in place and nothing that cannot
    be removed, both exits go through and the outcome is that of the
    body. *)
Lemma exit_error_of_None pr :
  script_kept pr → tree_removable pr → exit_error_of pr = None.
Proof.
  intros (c & Hf & Hprot) Htree. unfold exit_error_of, exit_error.
  rewrite bool_decide_eq_true_2 by (by apply removable_tree_after_unlink).
  unfold unlink_error. rewrite Hf, Hprot.
  rewrite bool_decide_eq_false_2; [done|]. by intros [? ?].
Qed.

Lemma exec_outcome_clean ctx st pr :
  procs (execute ctx st).2 = procs st ++ [pr] →
  script_kept pr → tree_removable pr →
  (execute ctx st).1 = body_outcome (self st) pr.
Proof.
  intros Hpr Hs Ht. rewrite (exec_outcome _ _ _ Hpr). unfold outcome_of.
  by rewrite exit_error_of_None.
Qed.

(** A normal return is the return of the body: no exit has failed. *)
Lemma exec_return_body ctx st pr r :
  procs (execute ctx st).2 = procs st ++ [pr] →
  (execute ctx st).1 = Return r →
  body_outcome (self st) pr = Return r ∧ exit_error_of pr = None.
Proof.
  intros Hpr. rewrite (exec_outcome _ _ _ Hpr). unfold outcome_of.
  by destruct (exit_error_of pr).
Qed.


(** ** The claims

    [procs (execute ctx st).2 = procs st ++ [pr]] reads: this invocation
    started the child [pr]; [p_out pr] is then all the child wrote,
    [p_rc pr] its exit status, and [p_fs pr] with [p_protected pr] the
    file system as it left it. *)

(** C1 (amended): a command whose combined output is N newline-terminated
    lines, each decodable under [output_encoding], which exits with status
    0 and leaves its script file in place and nothing in its working
    directory that cannot be removed: with capture enabled [execute]
    returns exactly the N decoded lines, in order, each with all its
    trailing whitespace removed (the line terminator included). *)
Theorem C1_captured_lines ctx st pr (raws : list pybytes) (texts : list pystr) :
  xcom_push_flag (self st) = true →
  procs (execute ctx st).2 = procs st ++ [pr] →
  p_rc pr = 0%Z →
  Forall (λ l, NL ∉ l) raws →
  p_out pr = concat (map (λ l, l ++ [NL]) raws) →
  Forall2 (λ l t, codec_decode (output_encoding (self st)) (l ++ [NL]) = Decoded t)
    raws texts →
  script_kept pr →
  tree_removable pr →
  (execute ctx st).1 = Return (Some (map rstrip texts)).
Proof.
  intros Hflag Hpr Hrc Hraws Hout Hdec Hkept Htree.
  rewrite (exec_outcome_clean _ _ _ Hpr Hkept Htree). unfold body_outcome.
  rewrite Hout, readlines_terminated by done.
  assert (scan (output_encoding (self st))
            (map (λ l, l ++ [NL]) raws) = (map rstrip texts, None)) as ->.
  { apply scan_captured. apply Forall2_fmap.
    eapply Forall2_impl; [exact Hdec|]. intros l t Ht. by exists t. }
  rewrite Hrc, Hflag. by rewrite bool_decide_eq_false_2 by (intros H; by apply H).
Qed.

(** C2 (amended): when the child was started, every line of its output
    decodes under [output_encoding], and it leaves its script file in place
    and nothing in its working directory that cannot be removed, [execute]
    raises [AirflowException("Bash command failed")] if and only if the
    exit code is non-zero, raises nothing else, and returns normally when
    the exit code is 0, whatever the capture flag and the amount of
    output. *)
Theorem C2_fails_iff_nonzero_exit ctx st pr :
  procs (execute ctx st).2 = procs st ++ [pr] →
  Forall (λ raw, ∃ t, codec_decode (output_encoding (self st)) raw = Decoded t)
    (readlines (p_out pr)) →
  script_kept pr →
  tree_removable pr →
  ((execute ctx st).1 = Raise (AirflowException (str "Bash command failed"))
   ↔ p_rc pr ≠ 0%Z)
  ∧ (p_rc pr = 0%Z → ∃ r, (execute ctx st).1 = Return r)
  ∧ (∀ e, (execute ctx st).1 = Raise e →
          e = AirflowException (str "Bash command failed")).
Proof.
  intros Hpr Hdec Hkept Htree.
  rewrite (exec_outcome_clean _ _ _ Hpr Hkept Htree). unfold body_outcome.
  destruct (scan_total _ _ Hdec) as [ls ->].
  case_bool_decide as Hrc.
  - split_and!; [done|done|by intros e [= <-]].
  - split_and!; [split; [done|intros H; by destruct Hrc]|eauto|done].
Qed.



Lemma exec_return_buffer ctx st r :
  (execute ctx st).1 = Return r →
  ∃ pr buffer,
    procs (execute ctx st).2 = procs st ++ [pr]
    ∧ Forall2 (captured (output_encoding (self st)))
        (readlines (p_out pr)) buffer
    ∧ r = if xcom_push_flag (self st) then Some buffer else None.
Proof.
  intros Hret. destruct (exec_return_inv _ _ _ Hret) as [pr Hpr].
  destruct (exec_return_body _ _ _ _ Hpr Hret) as [Hr _].
  unfold body_outcome in Hr.
  destruct (scan _ _) as [ls [x|]] eqn:Hscan; [done|].
  case_bool_decide; [done|]. injection Hr as <-.
  exists pr, ls. split_and!; [done| |done]. by apply scan_captured.
Qed.

(** C8: a successful invocation returns the ordered buffer of captured
    lines (each line of the child's output, decoded and right-stripped)
    when [xcom_push_flag] is set, and [None] when it is not. *)
Theorem C8_result_by_capture_flag ctx st r :
  (execute ctx st).1 = Return r →
  ∃ pr buffer,
    procs (execute ctx st).2 = procs st ++ [pr]
    ∧ Forall2 (captured (output_encoding (self st)))
        (readlines (p_out pr)) buffer
    ∧ r = if xcom_push_flag (self st) then Some buffer else None.
Proof. apply exec_return_buffer. Qed.

(** C4: with an explicitly supplied environment mapping, a key that occurs
    both in the mapping and among the context variables reaches the child
    with the context variable's value. *)
Theorem C4_context_overrides_env (ctx : context) (st : State) (l : loc)
    (m : dict) (k v : pystr) (pr : Process) :
  env (self st) = Some l →
  heap st !! l = Some m →
  is_Some (m !! k) →
  context_to_airflow_vars ctx true !! k = Some v →
  procs (execute ctx st).2 = procs st ++ [pr] →
  sp_env (p_spawn pr) !! k = Some v.
Proof.
  intros Henv Hm _ Hk (sp & Hsp & ->)%exec_procs_inv.
  apply spawn_request_inv in Hsp as (d & cs & f & cs' & data & _ & _ & _ & ->).
  cbn. unfold child_env. rewrite Henv, Hm. cbn.
  by apply lookup_union_Some_l.
Qed.

(** C5: without a supplied mapping the child gets the calling process's
    environment extended with the context variables (every variable of the
    parent is present, with the parent's value unless a context variable has
    the same name), and the parent's environment itself is left alone; with
    a supplied mapping the child gets exactly that mapping extended with the
    context variables. *)
Theorem C5_child_environment ctx st pr :
  procs (execute ctx st).2 = procs st ++ [pr] →
  (env (self st) = None →
     sp_env (p_spawn pr) = context_to_airflow_vars ctx true ∪ environ st
     ∧ (∀ k, is_Some (environ st !! k) → is_Some (sp_env (p_spawn pr) !! k))
     ∧ (∀ k, context_to_airflow_vars ctx true !! k = None →
             sp_env (p_spawn pr) !! k = environ st !! k)
     ∧ environ (execute ctx st).2 = environ st)
  ∧ (∀ (l : loc) (m : dict), env (self st) = Some l → heap st !! l = Some m →
       sp_env (p_spawn pr) = context_to_airflow_vars ctx true ∪ m).
Proof.
  intros (sp & Hsp & ->)%exec_procs_inv.
  apply spawn_request_inv in Hsp as (d & cs & f & cs' & data & _ & _ & _ & ->).
  cbn. unfold child_env. split.
  - intros Henv. rewrite Henv.
    split_and!; [done| | |apply exec_environ_frame; by rewrite Henv].
    + intros k [x Hx]. rewrite lookup_union.
      destruct (context_to_airflow_vars ctx true !! k); rewrite Hx; by eexists.
    + intros k Hk. by rewrite lookup_union_r.
  - intros l m -> ->. done.
Qed.




Ltac not_a_line H :=
  repeat (apply elem_of_cons in H as [H|H]; [discriminate H|]);
  by apply elem_of_nil in H.

Lemma log_script_lines o f pr l :
  LogLine l ∈ log_script o f pr → no_trailing_space l.
Proof.
  unfold log_script.
  destruct (scan _ _) as [ls e] eqn:Hscan.
  apply scan_stripped in Hscan.
  rewrite !elem_of_app, list_elem_of_fmap. intros [H|[H|H]].
  - not_a_line H.
  - destruct H as (l' & [= ->] & Hl').
    eapply Forall_forall in Hscan; eauto.
  - destruct e; not_a_line H.
Qed.

(** C10: every line [execute] logs or captures has no trailing whitespace
    left; in particular a line that ends in spaces or tabs before its
    newline is captured without them. *)
Theorem C10_trailing_whitespace_stripped ctx st :
  (∀ l, LogLine l ∈ drop (length (log st)) (log (execute ctx st).2) →
        no_trailing_space l)
  ∧ (∀ ls, (execute ctx st).1 = Return (Some ls) → Forall no_trailing_space ls)
  ∧ (∀ pr ls (i : nat) raw t ws,
       procs (execute ctx st).2 = procs st ++ [pr] →
       (execute ctx st).1 = Return (Some ls) →
       readlines (p_out pr) !! i = Some raw →
       codec_decode (output_encoding (self st)) raw
         = Decoded (t ++ ws ++ [0x0A]) →
       Forall (λ c, c = 0x20 ∨ c = 0x09) ws →
       ls !! i = Some (rstrip t)).
Proof.
  split_and!.
  - intros l. destruct (exec_log ctx st) as (new & -> & Hnew).
    rewrite drop_app_length. rewrite elem_of_app. intros [H|H].
    + unfold log_prologue in H. not_a_line H.
    + destruct (spawn_request _ _) as [sp|].
      * destruct Hnew as (f & _ & ->). by eapply log_script_lines.
      * subst. by apply elem_of_nil in H.
  - intros ls Hr. apply exec_return_buffer in Hr
      as (pr & buf & _ & Hbuf & Hres).
    destruct (xcom_push_flag _); [|done]. injection Hres as ->.
    clear -Hbuf. induction Hbuf as [|raw l ? ? (t & _ & ->) _ IH];
      constructor; [apply rstrip_no_trailing_space | done].
  - intros pr ls i raw t ws Hpr Hret Hraw Hdec Hws.
    destruct (exec_return_body _ _ _ _ Hpr Hret) as [Hr _].
    unfold body_outcome in Hr.
    destruct (scan _ _) as [buf [x|]] eqn:Hscan; [done|].
    case_bool_decide; [done|].
    destruct (xcom_push_flag _); [|done]. injection Hr as <-.
    apply scan_captured in Hscan.
    destruct (Forall2_lookup_l _ _ _ _ _ Hscan Hraw) as (l & -> & t' & Ht' & ->).
    rewrite Hdec in Ht'. injection Ht' as <-. f_equal.
    apply rstrip_app_space. apply Forall_app. split.
    + eapply Forall_impl; [exact Hws|]. by intros c [-> | ->].
    + by repeat constructor.
Qed.

End Correctness.

(** ** The examples *)

Example rstrip_keeps_inner_space :
  rstrip (str "a b" ++ [0x20; 0x09; 0x0A]) = str "a b".
Proof. reflexivity. Qed.

Example readlines_last_line_unterminated :
  readlines (bytes_lit ("one" +:+ LF +:+ "two" +:+ LF +:+ "x"))
  = [bytes_lit ("one" +:+ LF); bytes_lit ("two" +:+ LF); bytes_lit "x"].
Proof. reflexivity. Qed.

Example utf8_encode_widths :
  utf8_encode [0x41; 0xE9; 0x20AC; 0x1F600]
  = Some [x41; xc3; xa9; xe2; x82; xac; xf0; x9f; x98; x80].
Proof. reflexivity. Qed.

Example utf8_encode_lone_surrogate : utf8_encode [0x41; 0xD800] = None.
Proof. reflexivity. Qed.

Example utf8_decode_widths :
  utf8_decode [x41; xc3; xa9; xe2; x82; xac; xf0; x9f; x98; x80]
  = Some [0x41; 0xE9; 0x20AC; 0x1F600].
Proof. reflexivity. Qed.

Example utf8_decode_rejects :
  utf8_decode [xff] = None ∧ utf8_decode [xc0; x80] = None
  ∧ utf8_decode [xed; xa0; x80] = None ∧ utf8_decode [xe2; x82] = None.
Proof. by repeat split. Qed.

(** The example of the specification: the lines ["one"] and ["two"], then
    exit status 0; and a child that exits with status 3. *)
Example one_two_captured :
  (run_one_two true 0).1 = Return (Some [str "one"; str "two"])
  ∧ (run_one_two false 0).1 = Return None.
Proof. vm_compute. by split. Qed.

Example exit_3_raises :
  (run_one_two true 3).1 = Raise (AirflowException (str "Bash command failed")).
Proof. vm_compute. reflexivity. Qed.

(** The child of an example run has kept its script; its tree can be
    removed. *)
Ltac script_is_kept := eexists; split; vm_compute; reflexivity.
Ltac tree_is_removable :=
  apply (bool_decide_unpack _); vm_compute; exact I.



Lemma C1_witness :
  (run_one_two true 0).1 = Return (Some [str "one"; str "two"]).
Proof.
  apply (C1_captured_lines (P := py_platform out_one_two 0) dag_vars (st_inherit true) (the_child (run_one_two true 0))
           [bytes_lit "one"; bytes_lit "two"]
           [str "one" ++ [0x0A]; str "two" ++ [0x0A]]).
  - reflexivity.
  - vm_compute. reflexivity.
  - vm_compute. reflexivity.
  - repeat constructor;
      repeat (apply not_elem_of_cons; split; [discriminate|]);
      apply not_elem_of_nil.
  - vm_compute. reflexivity.
  - repeat constructor; vm_compute; reflexivity.
  - script_is_kept.
  - tree_is_removable.
Defined.

(** C1, as stated, fails: the command prints the line ["one  "] and exits
    with status 0, capture is on, and the result is ["one"], not the line
    with only its terminator removed. *)
Lemma C1_counterexample :
  xcom_push_flag (self st_trailing) = true
  ∧ map p_out (procs run_trailing.2) = [out_trailing]
  ∧ map p_rc (procs run_trailing.2) = [0%Z]
  ∧ py_decode (str "utf-8") out_trailing = Decoded (str "one  " ++ [0x0A])
  ∧ strip_terminator (str "one  " ++ [0x0A]) = str "one  "
  ∧ run_trailing.1 = Return (Some [str "one"])
  ∧ run_trailing.1 ≠ Return (Some [strip_terminator (str "one  " ++ [0x0A])]).
Proof. vm_compute. repeat split; try reflexivity. discriminate. Qed.

Lemma C2_witness :
  ((run_one_two false 3).1 = Raise (AirflowException (str "Bash command failed"))
   ↔ 3%Z ≠ 0%Z)
  ∧ ∃ r, (run_one_two false 0).1 = Return r.
Proof.
  split.
  - refine (proj1 (C2_fails_iff_nonzero_exit (P := py_platform out_one_two 3) dag_vars (st_inherit false)
                     (the_child (run_one_two false 3)) _ _ _ _)).
    + vm_compute. reflexivity.
    + repeat constructor; eexists; vm_compute; reflexivity.
    + script_is_kept.
    + tree_is_removable.
  - refine (proj1 (proj2 (C2_fails_iff_nonzero_exit (P := py_platform out_one_two 0) dag_vars (st_inherit false)
                            (the_child (run_one_two false 0)) _ _ _ _)) _).
    + vm_compute. reflexivity.
    + repeat constructor; eexists; vm_compute; reflexivity.
    + script_is_kept.
    + tree_is_removable.
    + vm_compute. reflexivity.
Defined.

(** C2, as stated, fails: the child exits with status 0 and [execute]
    raises all the same, because a line of its output is not valid UTF-8;
    with status 3 the error raised is not the [AirflowException]. *)
Lemma C2_counterexample :
  map p_rc (procs (run_undecodable 0).2) = [0%Z]
  ∧ (run_undecodable 0).1 = Raise UnicodeDecodeError
  ∧ map p_rc (procs (run_undecodable 3).2) = [3%Z]
  ∧ (run_undecodable 3).1 = Raise UnicodeDecodeError.
Proof. vm_compute. by repeat split. Qed.

(** C3, the claim that the supplied mapping has the same entries after the
    call, fails on the code: with [env={"A": "1"}] and the context variable
    [AIRFLOW_CTX_DAG_ID=d], [self.env] is still the dict object at address
    0, and that object has gained the context variable. *)
Theorem C3_supplied_env_is_mutated :
  env (self st_env_A) = Some 0%nat
  ∧ heap st_env_A !! 0%nat = Some env_A
  ∧ env (self run_env_A.2) = Some 0%nat
  ∧ heap run_env_A.2 !! 0%nat = Some (dag_vars ∪ env_A)
  ∧ env_A !! str "AIRFLOW_CTX_DAG_ID" = None
  ∧ (dag_vars ∪ env_A) !! str "AIRFLOW_CTX_DAG_ID" = Some (str "d").
Proof. vm_compute. by repeat split. Qed.

Lemma C4_witness :
  supplied_env !! str "AIRFLOW_CTX_DAG_ID" = Some (str "mine")
  ∧ sp_env (p_spawn (the_child run_supplied)) !! str "AIRFLOW_CTX_DAG_ID"
    = Some (str "d").
Proof.
  split; [vm_compute; reflexivity|].
  apply (C4_context_overrides_env (P := py_platform out_one_two 0) dag_vars st_supplied 0%nat supplied_env
           (str "AIRFLOW_CTX_DAG_ID") (str "d") (the_child run_supplied)).
  - reflexivity.
  - vm_compute. reflexivity.
  - exists (str "mine"). vm_compute. reflexivity.
  - vm_compute. reflexivity.
  - vm_compute. reflexivity.
Defined.

Lemma C5_witness :
  sp_env (p_spawn (the_child (run_one_two true 0))) = dag_vars ∪ parent_environ
  ∧ sp_env (p_spawn (the_child run_supplied)) = dag_vars ∪ supplied_env.
Proof.
  split.
  - refine (eq_trans
              (proj1 (proj1 (C5_child_environment (P := py_platform out_one_two 0)
                               dag_vars (st_inherit true)
                               (the_child (run_one_two true 0)) _) _)) _).
    + vm_compute. reflexivity.
    + reflexivity.
    + vm_compute. reflexivity.
  - refine (proj2 (C5_child_environment (P := py_platform out_one_two 0) dag_vars st_supplied (the_child run_supplied)
                     _) 0%nat supplied_env _ _).
    + vm_compute. reflexivity.
    + reflexivity.
    + vm_compute. reflexivity.
Defined.



(** [chmod a-w .]: the script cannot be unlinked, so the exit of
    [NamedTemporaryFile] raises in place of the captured line; the removal
    of the tree lifts the protection, and the directory is gone. *)
Example write_protected_directory :
  run_write_protected.1 = Raise OSError
  ∧ fs run_write_protected.2 !! str "/tmp/airflowtmpk3x9" = None
  ∧ fs run_write_protected.2 !! str "/tmp/airflowtmpk3x9/tq0w7" = None.
Proof. vm_compute. by repeat split. Qed.


Lemma C8_witness :
  (∃ pr buffer,
     procs (run_one_two true 0).2 = procs (st_inherit true) ++ [pr]
     ∧ Forall2 (captured (P := py_platform out_one_two 0) (str "utf-8")) (readlines (p_out pr)) buffer
     ∧ Some [str "one"; str "two"] = Some buffer)
  ∧ (∃ pr buffer,
     procs (run_one_two false 0).2 = procs (st_inherit false) ++ [pr]
     ∧ Forall2 (captured (P := py_platform out_one_two 0) (str "utf-8")) (readlines (p_out pr)) buffer
     ∧ None = (None : option (list pystr))).
Proof.
  split.
  - apply (C8_result_by_capture_flag (P := py_platform out_one_two 0) dag_vars (st_inherit true) (Some [str "one"; str "two"])).
    vm_compute. reflexivity.
  - apply (C8_result_by_capture_flag (P := py_platform out_one_two 0) dag_vars (st_inherit false) None).
    vm_compute. reflexivity.
Defined.


Lemma C10_witness :
  py_decode (str "utf-8") out_blank_tab = Decoded (str "a" ++ [0x20; 0x09] ++ [0x0A])
  ∧ run_blank_tab.1 = Return (Some [str "a"])
  ∧ [str "a"] !! 0%nat = Some (rstrip (str "a")).
Proof.
  split; [vm_compute; reflexivity|].
  split; [vm_compute; reflexivity|].
  apply (proj2 (proj2 (C10_trailing_whitespace_stripped (P := py_platform out_blank_tab 0) dag_vars
                         (st_inherit true)))
           (the_child run_blank_tab) [str "a"] 0%nat out_blank_tab (str "a")
           [0x20; 0x09]).
  - vm_compute. reflexivity.
  - vm_compute. reflexivity.
  - vm_compute. reflexivity.
  - vm_compute. reflexivity.
  - constructor; [by left|]. constructor; [by right|]. constructor.
Defined.

(** * Further properties of [execute] *)

(** ** Line 140: how [iter(stdout.readline, b"")] cuts the stream *)

Lemma readlines_cons_inv b s :
  readlines (b :: s) =
  if Byte.eqb b NL then [b] :: readlines s
  else match readlines s with
       | [] => [[b]]
       | l :: ls => (b :: l) :: ls
       end.
Proof. reflexivity. Qed.

Lemma readlines_concat s : concat (readlines s) = s.
Proof.
  induction s as [|b s IH]; [done|].
  rewrite readlines_cons_inv. destruct (Byte.eqb b NL).
  - cbn. by rewrite IH.
  - destruct (readlines s) as [|l ls]; cbn in *; by rewrite <- IH.
Qed.

Lemma readlines_all_but_last_terminated s :
  Forall (λ l, last l = Some NL) (removelast (readlines s)).
Proof.
  induction s as [|b s IH]; [constructor|].
  rewrite readlines_cons_inv. destruct (Byte.eqb b NL) eqn:Hb.
  - apply Byte.byte_dec_bl in Hb as ->.
    destruct (readlines s) as [|l ls] eqn:E; [constructor|].
    cbn [removelast]. constructor; [done|]. exact IH.
  - destruct (readlines s) as [|l ls]; [constructor|].
    destruct ls as [|l' ls]; [constructor|].
    cbn [removelast] in *. inversion IH as [|? ? Hl Hrest]; subst.
    constructor; [|done]. destruct l; [done|]. exact Hl.
Qed.

Lemma readlines_no_inner_newline s :
  Forall (λ l, l ≠ [] ∧ NL ∉ removelast l) (readlines s).
Proof.
  induction s as [|b s IH]; [constructor|].
  rewrite readlines_cons_inv. destruct (Byte.eqb b NL) eqn:Hb.
  - constructor; [|done]. split; [done|]. cbn. apply not_elem_of_nil.
  - assert (b ≠ NL) as Hne by (intros ->; discriminate).
    destruct (readlines s) as [|l ls].
    + constructor; [|done]. split; [done|]. cbn. apply not_elem_of_nil.
    + inversion IH as [|? ? [Hl Hin] Hrest]; subst.
      constructor; [|done]. split; [done|].
      destruct l as [|b' l]; [done|]. cbn [removelast].
      apply not_elem_of_cons. split; [congruence|]. exact Hin.
Qed.

(** X1: the loop sees every byte the child wrote exactly once: the lines
    read, put back together, are the output; no line is empty (so the
    sentinel [b""] only comes at the end of the stream), a newline occurs
    only as the last byte of a line, and every line but the last ends in
    one. *)
Theorem readlines_partition s :
  concat (readlines s) = s
  ∧ Forall (λ l, l ≠ [] ∧ NL ∉ removelast l) (readlines s)
  ∧ Forall (λ l, last l = Some NL) (removelast (readlines s)).
Proof.
  split_and!; [apply readlines_concat | apply readlines_no_inner_newline
               | apply readlines_all_but_last_terminated].
Qed.

Lemma readlines_one_line b tail :
  NL ∉ b :: tail → readlines (b :: tail) = [b :: tail].
Proof.
  revert b. induction tail as [|b' tail IH]; intros b Hb;
    rewrite readlines_cons_inv;
    apply not_elem_of_cons in Hb as [Hb Htail];
    (destruct (Byte.eqb b NL) eqn:E;
     [apply Byte.byte_dec_bl in E; congruence|]).
  - done.
  - by rewrite IH.
Qed.

Lemma readlines_unterminated raws tail :
  Forall (λ l, NL ∉ l) raws → tail ≠ [] → NL ∉ tail →
  readlines (concat (map (λ l, l ++ [NL]) raws) ++ tail)
  = map (λ l, l ++ [NL]) raws ++ [tail].
Proof.
  intros Hraws Hne Htail.
  induction Hraws as [|l raws Hl _ IH].
  - cbn. destruct tail as [|b tail]; [done|]. by apply readlines_one_line.
  - cbn [map concat]. rewrite <- !app_assoc. cbn [app].
    by rewrite readlines_line, IH.
Qed.

Lemma pick_name_inv files base cands p cs :
  pick_name files base cands = Some (p, cs) →
  ∃ pre c, cands = pre ++ c :: cs ∧ p = base ++ c ∧ files !! p = None
           ∧ Forall (λ c', is_Some (files !! (base ++ c'))) pre.
Proof.
  revert p cs. induction cands as [|c cands IH]; intros p cs; [done|].
  cbn [pick_name]. destruct (files !! (base ++ c)) as [n|] eqn:E.
  - intros (pre & c' & -> & -> & Hp & Hpre)%IH.
    exists (c :: pre), c'. split_and!; [done|done|done|].
    constructor; [by eexists|done].
  - intros [= <- <-]. exists [], c. by split_and!.
Qed.

(** X2: [bytes(self.bash_command, "utf_8")] fails exactly when the command
    text holds a surrogate code point (or a number that is no code point),
    and writes an all-ASCII command byte for byte. *)
Theorem utf8_encode_errors_and_ascii s :
  (utf8_encode s = None
   ↔ Exists (λ c, is_surrogate c = true ∨ 0x110000 ≤ c) s)
  ∧ (Forall (λ c, c < 0x80) s →
     ∃ bs, utf8_encode s = Some bs ∧ map Byte.to_N bs = s).
Proof.
  split; [apply utf8_encode_None|].
  induction 1 as [|c s Hc _ (bs & IH & Hbs)]; [by exists []|].
  cbn [utf8_encode]. unfold utf8_encode_char.
  apply N.ltb_lt in Hc as Hc'. rewrite Hc', IH.
  eexists. split; [done|]. cbn. rewrite Hbs. f_equal.
  unfold byte_of_N. destruct (Byte.of_N c) as [b|] eqn:E.
  - cbn. by apply Byte.to_of_N.
  - apply Byte.of_N_None_iff in E. lia.
Qed.

Section Coverage.

Context {P : Platform}.

Ltac run_cases st :=
  rewrite ?execute_eq in *; unfold execute_nf, spawn_request in *;
  destruct (pick_name (fs st) (path_join (tempdir st) (str "airflowtmp"))
              (rng st)) as [[?d ?cs]|] eqn:?Hdir;
  [ destruct (pick_name (<[_ := Dir]> (fs st)) _ _) as [[?f ?cs]|] eqn:?Hfile;
    [ destruct (utf8_encode (bash_command (self st))) as [?data|] eqn:?Henc
    | ]
  | ];
  cbv zeta in *;
  cbn [fst snd self heap os_environ tempdir fs protected rng log procs] in *.


(** What a run that started a child leaves in the log and in
    [self.sub_process]. *)
Lemma exec_spawned_state ctx st pr :
  procs (execute ctx st).2 = procs st ++ [pr] →
  ∃ f, sp_args (p_spawn pr) = [str "bash"; f]
       ∧ log (execute ctx st).2
         = log st ++ log_prologue ctx st ++ log_script (self st) f pr
       ∧ sub_process (self (execute ctx st).2)
         = Some (popen_after (self st) (length (procs st)) pr).
Proof.
  intros Hpr. destruct (exec_procs_inv _ _ _ Hpr) as (sp & Hsp & ->).
  clear Hpr. run_cases st; try done. injection Hsp as <-.
  by exists f.
Qed.

(** The file system a run that started a child leaves: what the child
    left, after the two exits. *)
Lemma exec_spawned_fs ctx st pr :
  procs (execute ctx st).2 = procs st ++ [pr] →
  fs (execute ctx st).2
  = fs_after_exits (sp_cwd (p_spawn pr)) (script_of (p_spawn pr)) (p_fs pr)
      (p_protected pr)
  ∧ ∃ c, script_of (p_spawn pr)
         = path_join (sp_cwd (p_spawn pr)) (task_id (self st)) ++ c.
Proof.
  intros Hpr. destruct (exec_procs_inv _ _ _ Hpr) as (sp & Hsp & ->).
  clear Hpr. run_cases st; try done. injection Hsp as <-.
  split; [done|]. cbn. by apply pick_name_unused in Hfile as [_ ?].
Qed.

(** X3: the log trail of a run whose output all decodes, whether the
    command succeeds or fails: temp root, exported variables, script
    location, command, the header, one record per output line in order,
    and last the exit code, which is logged before a non-zero code
    raises. *)
Theorem log_trail_of_completed_run ctx st pr ls :
  procs (execute ctx st).2 = procs st ++ [pr] →
  Forall2 (captured (output_encoding (self st))) (readlines (p_out pr)) ls →
  ∃ f, sp_args (p_spawn pr) = [str "bash"; f]
       ∧ log (execute ctx st).2
         = log st
           ++ [LogTmpRoot (tempdir st);
               LogExportEnv (map_to_list (context_to_airflow_vars ctx true));
               LogScriptLocation f;
               LogRunning (bash_command (self st));
               LogOutputHeader]
           ++ map LogLine ls ++ [LogExit (p_rc pr)].
Proof.
  intros Hpr Hls. destruct (exec_spawned_state _ _ _ Hpr) as (f & Hf & -> & _).
  exists f. split; [done|]. unfold log_prologue, log_script.
  apply scan_captured in Hls. by rewrite Hls.
Qed.

(** X4: [self.sub_process] after a run whose output all decodes is the
    handle of the child this run started, with the child's exit status in
    [returncode], also when that status makes [execute] raise. *)
Theorem sub_process_holds_exit_status ctx st pr :
  procs (execute ctx st).2 = procs st ++ [pr] →
  Forall (λ raw, ∃ t, codec_decode (output_encoding (self st)) raw = Decoded t)
    (readlines (p_out pr)) →
  sub_process (self (execute ctx st).2)
  = Some {| pid := length (procs st); returncode := Some (p_rc pr) |}
  ∧ procs (execute ctx st).2 !! length (procs st) = Some pr.
Proof.
  intros Hpr Hdec. destruct (exec_spawned_state _ _ _ Hpr) as (f & _ & _ & ->).
  destruct (scan_total _ _ Hdec) as [ls Hls].
  unfold popen_after. rewrite Hls, Hpr. split; [done|].
  apply lookup_snoc_length.
Qed.


(** X6: a child that writes nothing and leaves its script in place and
    nothing that cannot be removed: the loop body never runs, so the
    output encoding is never looked up; with exit status 0 the result is
    the empty list when capture is on and [None] when it is off. *)
Theorem silent_child ctx st pr :
  procs (execute ctx st).2 = procs st ++ [pr] →
  p_out pr = [] →
  script_kept pr →
  tree_removable pr →
  (execute ctx st).1
  = if bool_decide (p_rc pr ≠ 0%Z)
    then Raise (AirflowException (str "Bash command failed"))
    else Return (if xcom_push_flag (self st) then Some [] else None).
Proof.
  intros Hpr Hout Hkept Htree.
  rewrite (exec_outcome_clean _ _ _ Hpr Hkept Htree).
  unfold body_outcome. by rewrite Hout.
Qed.

(** X7: a last line without a newline is read, logged and captured like
    the others (the child has left its script in place and nothing that
    cannot be removed). *)
Theorem last_line_without_newline ctx st pr
    (raws : list pybytes) (tail : pybytes) (texts : list pystr) (t : pystr) :
  xcom_push_flag (self st) = true →
  procs (execute ctx st).2 = procs st ++ [pr] →
  p_rc pr = 0%Z →
  Forall (λ l, NL ∉ l) raws →
  tail ≠ [] →
  NL ∉ tail →
  p_out pr = concat (map (λ l, l ++ [NL]) raws) ++ tail →
  Forall2 (λ l t, codec_decode (output_encoding (self st)) (l ++ [NL]) = Decoded t)
    raws texts →
  codec_decode (output_encoding (self st)) tail = Decoded t →
  script_kept pr →
  tree_removable pr →
  (execute ctx st).1 = Return (Some (map rstrip texts ++ [rstrip t])).
Proof.
  intros Hflag Hpr Hrc Hraws Hne Htail Hout Hdec Ht Hkept Htree.
  rewrite (exec_outcome_clean _ _ _ Hpr Hkept Htree). unfold body_outcome.
  rewrite Hout, readlines_unterminated by done.
  assert (scan (output_encoding (self st))
            (map (λ l, l ++ [NL]) raws ++ [tail])
          = (map rstrip texts ++ [rstrip t], None)) as ->.
  { apply scan_captured. apply Forall2_app.
    - apply Forall2_fmap. eapply Forall2_impl; [exact Hdec|].
      intros l t' Ht'. by exists t'.
    - constructor; [by exists t|constructor]. }
  rewrite Hrc, Hflag. by rewrite bool_decide_eq_false_2 by (intros H; by apply H).
Qed.

(** X8: the child is [bash] on the script file, started in the temporary
    directory; the directory's name is [airflowtmp] plus a drawn name under
    [gettempdir()] and did not exist before; the script's name is the task
    id plus a drawn name, inside that directory. *)
Theorem child_started_in_fresh_tmpdir ctx st pr :
  procs (execute ctx st).2 = procs st ++ [pr] →
  ∃ c1 c2,
    c1 ∈ rng st ∧ c2 ∈ rng st
    ∧ sp_cwd (p_spawn pr) = path_join (tempdir st) (str "airflowtmp") ++ c1
    ∧ sp_args (p_spawn pr)
      = [str "bash";
         path_join (sp_cwd (p_spawn pr)) (task_id (self st)) ++ c2]
    ∧ fs st !! sp_cwd (p_spawn pr) = None.
Proof.
  intros (sp & Hsp & ->)%exec_procs_inv.
  apply spawn_request_inv in Hsp as (d & cs & f & cs' & data & Hd & Hf & _ & ->).
  apply pick_name_inv in Hd as (pre1 & c1 & Hrng & -> & Hfresh & _).
  apply pick_name_inv in Hf as (pre2 & c2 & -> & -> & _ & _).
  exists c1, c2. cbn. rewrite Hrng. split_and!; try done.
  - rewrite elem_of_app, elem_of_cons. auto.
  - rewrite elem_of_app, elem_of_cons, elem_of_app, elem_of_cons.
    do 3 right. by left.
Qed.

(** X9: a command text that cannot be encoded never reaches [Popen]: no
    child is started, the command is not logged as running, and the error
    is [UnicodeEncodeError] (or [FileExistsError] when no temporary name
    was free to begin with). *)
Theorem unencodable_command ctx st :
  Exists (λ c, is_surrogate c = true ∨ 0x110000 ≤ c) (bash_command (self st)) →
  procs (execute ctx st).2 = procs st
  ∧ log (execute ctx st).2 = log st ++ log_prologue ctx st
  ∧ ((execute ctx st).1 = Raise UnicodeEncodeError
     ∨ (execute ctx st).1 = Raise FileExistsError).
Proof.
  intros Hbad%utf8_encode_None.
  run_cases st; rewrite ?app_nil_r; try congruence; auto.
Qed.

(** X10: one invocation starts at most one child, whose recorded output and
    exit status are what [bash] does on the start-up given, and leaves the
    earlier entries of the process table alone. *)
Theorem at_most_one_child ctx st :
  procs (execute ctx st).2 = procs st
  ∨ ∃ pr, procs (execute ctx st).2 = procs st ++ [pr]
          ∧ p_out pr = (bash (p_spawn pr)).1
          ∧ p_rc pr = (bash (p_spawn pr)).2.
Proof.
  destruct (spawn_request ctx st) as [sp|] eqn:E.
  - right. exists (child sp). by apply exec_spawned in E as [_ ->].
  - left. by apply exec_unspawned in E as [-> _].
Qed.

(** X11: the only dict object [execute] modifies is the one [self.env]
    refers to: every other dict is as before, and so is [os.environ],
    unless [self.env] is [os.environ] itself, in which case the process
    environment has gained the context variables. *)
Theorem other_dicts_untouched (ctx : context) (st : State) (l : loc) (m : dict) :
  heap st !! l = Some m →
  (env (self st) ≠ Some l → heap (execute ctx st).2 !! l = Some m)
  ∧ os_environ (execute ctx st).2 = os_environ st
  ∧ (env (self st) ≠ Some (os_environ st) →
     environ (execute ctx st).2 = environ st)
  ∧ (env (self st) = Some l → os_environ st = l →
     environ (execute ctx st).2 = context_to_airflow_vars ctx true ∪ m).
Proof.
  intros Hm. split_and!.
  - intros Hne. rewrite exec_heap_frame; [done|done|].
    apply elem_of_union_l, elem_of_dom. by eexists.
  - apply exec_os_environ.
  - apply exec_environ_frame.
  - intros Henv Hl. unfold environ, deref. rewrite exec_os_environ, Hl.
    by rewrite (exec_supplied_env_updated _ _ _ _ Henv Hm).
Qed.

(** X12: running the operator again with a supplied mapping: the mapping
    still holds the context variables of the earlier run, so the second
    child gets them too unless the new context overrides them. *)
Theorem earlier_context_reaches_later_child (ctx1 ctx2 : context) (st : State)
    (l : loc) (m : dict) (pr2 : Process) :
  env (self st) = Some l →
  heap st !! l = Some m →
  procs (execute ctx2 (execute ctx1 st).2).2
    = procs (execute ctx1 st).2 ++ [pr2] →
  sp_env (p_spawn pr2)
  = context_to_airflow_vars ctx2 true
    ∪ (context_to_airflow_vars ctx1 true ∪ m)
  ∧ (∀ k v, context_to_airflow_vars ctx1 true !! k = Some v →
            context_to_airflow_vars ctx2 true !! k = None →
            sp_env (p_spawn pr2) !! k = Some v).
Proof.
  intros Henv Hm (sp & Hsp & ->)%exec_procs_inv.
  apply spawn_request_inv in Hsp as (d & cs & f & cs' & data & _ & _ & _ & ->).
  cbn. unfold child_env.
  destruct (exec_self_frame ctx1 st) as (_ & -> & _).
  rewrite Henv, (exec_supplied_env_updated _ _ _ _ Henv Hm). cbn.
  split; [done|]. intros k v H1 H2.
  rewrite lookup_union_r by done. by apply lookup_union_Some_l.
Qed.

(** X13: [rstrip()] removes nothing but trailing whitespace: every
    captured line is the decoded line minus a suffix of whitespace
    characters, so leading and inner whitespace is kept. *)
Theorem captured_line_is_prefix ctx st pr ls :
  (execute ctx st).1 = Return (Some ls) →
  procs (execute ctx st).2 = procs st ++ [pr] →
  Forall2 (λ raw l, ∃ t ws,
             codec_decode (output_encoding (self st)) raw = Decoded t
             ∧ t = l ++ ws ∧ Forall (λ c, isspace c = true) ws)
    (readlines (p_out pr)) ls.
Proof.
  intros Hret Hpr. destruct (exec_return_body _ _ _ _ Hpr Hret) as [Hr _].
  unfold body_outcome in Hr.
  destruct (scan _ _) as [buf [x|]] eqn:Hscan; [done|].
  case_bool_decide; [done|].
  destruct (xcom_push_flag _); [|done]. injection Hr as <-.
  apply scan_captured in Hscan.
  eapply Forall2_impl; [exact Hscan|].
  intros raw l (t & Ht & ->). destruct (rstrip_suffix t) as (ws & Hws & Hsp).
  by exists t, ws.
Qed.

(** X14: the capture flag changes the returned value and nothing else: the
    log, the child, the file system and the heap are the same with capture
    on and off, and an error is raised in the one case exactly when it is
    in the other. *)
Theorem capture_flag_only_changes_result ctx st b :
  let st' := set_self (with_xcom_push_flag b) st in
  log (execute ctx st').2 = log (execute ctx st).2
  ∧ procs (execute ctx st').2 = procs (execute ctx st).2
  ∧ fs (execute ctx st').2 = fs (execute ctx st).2
  ∧ heap (execute ctx st').2 = heap (execute ctx st).2
  ∧ (∀ e, (execute ctx st').1 = Raise e ↔ (execute ctx st).1 = Raise e).
Proof.
  cbv zeta. rewrite !execute_eq. unfold execute_nf.
  cbn [set_self self fs protected rng tempdir log procs with_xcom_push_flag
       bash_command task_id].
  destruct (pick_name _ _ (rng st)) as [[d cs]|]; [|done].
  destruct (pick_name _ _ cs) as [[f cs']|]; [|done].
  destruct (utf8_encode _) as [data|]; [|done].
  cbn [fst snd log procs fs heap].
  unfold outcome_of, body_outcome, log_script, child.
  cbn [p_out p_rc output_encoding with_xcom_push_flag xcom_push_flag
       bash_command].
  split_and!; try done.
  intros e. destruct (exit_error_of _); [done|].
  destruct (scan _ _) as [ls [x|]]; [done|].
  destruct (bool_decide _); [done|]. done.
Qed.

(** X15: what [execute] itself does to the file system stays inside its
    temporary directory: at a path outside it, the child is started on the
    file system as it was, and the file system after the call is as the
    child left it (as it was, when no child was started). *)
Theorem files_elsewhere_untouched ctx st p :
  (pick_name (fs st) (path_join (tempdir st) (str "airflowtmp")) (rng st)
     = None →
   fs (execute ctx st).2 = fs st)
  ∧ (∀ d cs,
       pick_name (fs st) (path_join (tempdir st) (str "airflowtmp")) (rng st)
         = Some (d, cs) →
       under d p = false →
       (procs (execute ctx st).2 = procs st →
        fs (execute ctx st).2 !! p = fs st !! p)
       ∧ (∀ pr, procs (execute ctx st).2 = procs st ++ [pr] →
            sp_fs (p_spawn pr) !! p = fs st !! p
            ∧ fs (execute ctx st).2 !! p = p_fs pr !! p)).
Proof.
  split.
  - intros Hnone. run_cases st; done.
  - intros d0 cs0 Hd0 Hp.
    assert (p ≠ d0) as Hne.
    { intros ->. by rewrite under_self in Hp. }
    split.
    + intros Hsame.
      run_cases st; try discriminate; injection Hd0 as <- <-;
        try (apply pick_name_unused in Hfile as [_ [c ->]];
             assert (p ≠ path_join d (task_id (self st)) ++ c) as Hnf
               by (intros ->; by rewrite under_child in Hp)).
      * apply (f_equal length) in Hsame. rewrite length_app in Hsame.
        cbn in Hsame. lia.
      * rewrite rmtree_fs_lookup_ne by done.
        rewrite lookup_delete_ne by done.
        by rewrite !lookup_insert_ne.
      * rewrite rmtree_fs_lookup_ne by done.
        by rewrite lookup_insert_ne.
    + intros pr Hpr. destruct (exec_spawned_fs _ _ _ Hpr) as [Hfs [c Hf]].
      destruct (exec_procs_inv _ _ _ Hpr) as (sp & Hsp & ->).
      apply spawn_request_inv in Hsp
        as (d & cs & f & cs' & data & Hd & Hfile & _ & ->).
      rewrite Hd0 in Hd. injection Hd as <- <-.
      apply pick_name_unused in Hfile as [_ [c' Hf']].
      assert (p ≠ f) as Hnf by (intros ->; by rewrite Hf', under_child in Hp).
      split; [cbn; by rewrite !lookup_insert_ne|].
      rewrite Hfs. unfold fs_after_exits, fs_after_unlink, script_of.
      cbn [p_spawn child sp_cwd sp_args lookup list_lookup default
           from_option id].
      destruct (unlink_error _ _ f); case_bool_decide;
        rewrite ?rmtree_fs_lookup_ne, ?rmtree_partial_lookup_ne by done;
        by rewrite ?lookup_delete_ne.
Qed.

(** X16: of the attributes of the operator, [execute] assigns
    [lineage_data] (the command text, on every path) and [sub_process]; the
    command, the reference in [env], the capture flag, the output encoding
    and the task id are as before. *)
Theorem request_attributes_kept ctx st :
  bash_command (self (execute ctx st).2) = bash_command (self st)
  ∧ env (self (execute ctx st).2) = env (self st)
  ∧ xcom_push_flag (self (execute ctx st).2) = xcom_push_flag (self st)
  ∧ output_encoding (self (execute ctx st).2) = output_encoding (self st)
  ∧ task_id (self (execute ctx st).2) = task_id (self st)
  ∧ lineage_data (self (execute ctx st).2) = Some (bash_command (self st)).
Proof. apply exec_self_frame. Qed.


(** X18: without a supplied mapping every run starts from the process
    environment afresh: the second of two runs gives its child the
    process environment extended with the second context's variables only. *)
Theorem no_context_carried_over_without_env (ctx1 ctx2 : context) (st : State)
    (pr2 : Process) :
  env (self st) = None →
  procs (execute ctx2 (execute ctx1 st).2).2
    = procs (execute ctx1 st).2 ++ [pr2] →
  sp_env (p_spawn pr2) = context_to_airflow_vars ctx2 true ∪ environ st.
Proof.
  intros Henv (sp & Hsp & ->)%exec_procs_inv.
  apply spawn_request_inv in Hsp as (d & cs & f & cs' & data & _ & _ & _ & ->).
  cbn. unfold child_env.
  destruct (exec_self_frame ctx1 st) as (_ & -> & _).
  rewrite Henv, exec_environ_frame; [done|]. by rewrite Henv.
Qed.



End Coverage.

(** ** Line 115: the script file determines the command text *)

(** X19: the UTF-8 encoding written to the script file loses nothing:
    decoding the bytes gives back the command text, so two command texts
    with the same script file are the same text. *)
Theorem utf8_encode_roundtrip s bs :
  utf8_encode s = Some bs →
  utf8_decode bs = Some s
  ∧ ∀ s', utf8_encode s' = Some bs → s' = s.
Proof.
  intros Hs. split; [by apply utf8_encode_decode|].
  intros s' Hs'. apply utf8_encode_decode in Hs, Hs'. congruence.
Qed.

(** ** Lines 121-126: [pre_exec] *)

Lemma setsid_dispositions ps ps' :
  setsid ps = Some ps' → dispositions ps' = dispositions ps.
Proof. unfold setsid. case_bool_decide; [done|]. by intros [= <-]. Qed.

Lemma reset_loop_disposition (signal_module : gmap pystr nat) sigs ps n :
  disposition
    (foldl (λ ps sig,
              match signal_module !! sig with
              | Some signum => signal_signal signum SIG_DFL ps
              | None => ps
              end) ps sigs) n
  = if bool_decide (Exists (λ sig, signal_module !! sig = Some n) sigs)
    then SIG_DFL else disposition ps n.
Proof.
  revert ps. induction sigs as [|sig sigs IH]; intros ps.
  - cbn [foldl]. rewrite bool_decide_eq_false_2; [done|].
    by intros ?%Exists_nil.
  - cbn [foldl]. rewrite IH. clear IH.
    destruct (decide (Exists (λ s, signal_module !! s = Some n) sigs))
      as [Hyes|Hno].
    + rewrite !bool_decide_eq_true_2; [done| |done]. by apply Exists_cons_tl.
    + rewrite (bool_decide_eq_false_2 _ Hno).
      destruct (decide (signal_module !! sig = Some n)) as [Hm|Hm].
      * rewrite Hm, bool_decide_eq_true_2 by (by apply Exists_cons_hd).
        unfold disposition, signal_signal. cbn. by rewrite lookup_insert_eq.
      * rewrite bool_decide_eq_false_2
          by (intros [?|?]%Exists_cons; done).
        destruct (signal_module !! sig) as [m|]; [|done].
        unfold disposition, signal_signal. cbn.
        rewrite lookup_insert_ne; [done|congruence].
Qed.

(** X20: [pre_exec] gives the default disposition to each of [SIGPIPE],
    [SIGXFZ] and [SIGXFSZ] that the [signal] module has, skips a name the
    module lacks, and leaves the disposition of every other signal as the
    child inherited it. *)
Theorem pre_exec_restores_defaults (signal_module : gmap pystr nat) ps ps' :
  pre_exec signal_module ps = Some ps' →
  (∀ sig n, sig ∈ reset_signals → signal_module !! sig = Some n →
            disposition ps' n = SIG_DFL)
  ∧ (∀ n, (∀ sig, sig ∈ reset_signals → signal_module !! sig ≠ Some n) →
          disposition ps' n = disposition ps n).
Proof.
  unfold pre_exec. intros Hsid.
  assert (∀ n, disposition ps' n
               = if bool_decide (Exists (λ sig, signal_module !! sig = Some n)
                                   reset_signals)
                 then SIG_DFL else disposition ps n) as Hd.
  { intros n. rewrite <- reset_loop_disposition.
    unfold disposition. by rewrite (setsid_dispositions _ _ Hsid). }
  split.
  - intros sig n Hsig Hn. rewrite Hd, bool_decide_eq_true_2; [done|].
    apply Exists_exists. by exists sig.
  - intros n Hn. rewrite Hd, bool_decide_eq_false_2; [done|].
    intros (sig & Hsig & Hm)%Exists_exists. by apply (Hn sig).
Qed.

(** X21: [pre_exec] puts the child in a session and a process group of its
    own ([os.setsid()]); it fails only for a process that already leads a
    process group, never because a signal name is missing. *)
Theorem pre_exec_new_session (signal_module : gmap pystr nat) ps :
  (is_Some (pre_exec signal_module ps) ↔ ps_pgid ps ≠ ps_pid ps)
  ∧ (∀ ps', pre_exec signal_module ps = Some ps' →
            ps_pid ps' = ps_pid ps ∧ ps_sid ps' = ps_pid ps
            ∧ ps_pgid ps' = ps_pid ps).
Proof.
  unfold pre_exec.
  assert (∀ sigs q,
            ps_pid (foldl (λ ps sig,
                             match signal_module !! sig with
                             | Some signum => signal_signal signum SIG_DFL ps
                             | None => ps
                             end) q sigs) = ps_pid q
            ∧ ps_pgid (foldl (λ ps sig,
                                match signal_module !! sig with
                                | Some signum => signal_signal signum SIG_DFL ps
                                | None => ps
                                end) q sigs) = ps_pgid q) as Hids.
  { induction sigs as [|sig sigs IH]; intros q; [done|].
    cbn [foldl]. destruct (IH (match signal_module !! sig with
                               | Some signum => signal_signal signum SIG_DFL q
                               | None => q
                               end)) as [-> ->].
    by destruct (signal_module !! sig). }
  destruct (Hids reset_signals ps) as [Hpid Hpgid].
  unfold setsid. rewrite Hpid, Hpgid. case_bool_decide as Hlead.
  - split; [|done]. split; [by intros [? ?]|done].
  - split; [split; [done|by eexists]|]. by intros ps' [= <-].
Qed.

(** ** The further properties on the examples *)

Lemma utf8_encode_errors_and_ascii_witness :
  ∃ bs, utf8_encode cmd_one_two = Some bs ∧ map Byte.to_N bs = cmd_one_two.
Proof.
  apply (proj2 (utf8_encode_errors_and_ascii cmd_one_two)).
  vm_compute. repeat constructor.
Defined.

Lemma log_trail_of_completed_run_witness :
  ∃ f, sp_args (p_spawn (the_child (run_one_two true 3))) = [str "bash"; f]
       ∧ log (run_one_two true 3).2
         = log (st_inherit true)
           ++ [LogTmpRoot (str "/tmp");
               LogExportEnv (map_to_list dag_vars);
               LogScriptLocation f;
               LogRunning cmd_one_two;
               LogOutputHeader]
           ++ map LogLine [str "one"; str "two"] ++ [LogExit 3].
Proof.
  apply (log_trail_of_completed_run (P := py_platform out_one_two 3) dag_vars
           (st_inherit true) (the_child (run_one_two true 3))
           [str "one"; str "two"]).
  - vm_compute. reflexivity.
  - constructor; [exists (str "one" ++ [0x0A]); split; vm_compute; reflexivity|].
    constructor; [exists (str "two" ++ [0x0A]); split; vm_compute; reflexivity|].
    constructor.
Defined.

Lemma sub_process_holds_exit_status_witness :
  sub_process (self (run_one_two true 3).2)
  = Some {| pid := 0; returncode := Some 3%Z |}
  ∧ procs (run_one_two true 3).2 !! 0%nat = Some (the_child (run_one_two true 3)).
Proof.
  apply (sub_process_holds_exit_status (P := py_platform out_one_two 3) dag_vars
           (st_inherit true) (the_child (run_one_two true 3))).
  - vm_compute. reflexivity.
  - repeat constructor; eexists; vm_compute; reflexivity.
Defined.


Lemma silent_child_witness :
  (run_silent true).1 = Return (Some []) ∧ (run_silent false).1 = Return None.
Proof.
  split.
  - apply (silent_child (P := py_platform [] 0) dag_vars (st_silent true)
             (the_child (run_silent true)));
      [vm_compute; reflexivity|vm_compute; reflexivity|script_is_kept
      |tree_is_removable].
  - apply (silent_child (P := py_platform [] 0) dag_vars (st_silent false)
             (the_child (run_silent false)));
      [vm_compute; reflexivity|vm_compute; reflexivity|script_is_kept
      |tree_is_removable].
Defined.

Lemma last_line_without_newline_witness :
  run_unterminated.1 = Return (Some [str "one"; str "two"]).
Proof.
  apply (last_line_without_newline (P := py_platform out_unterminated 0)
           dag_vars (st_inherit true) (the_child run_unterminated)
           [bytes_lit "one"] (bytes_lit "two") [str "one" ++ [0x0A]] (str "two")).
  - reflexivity.
  - vm_compute. reflexivity.
  - vm_compute. reflexivity.
  - repeat constructor;
      repeat (apply not_elem_of_cons; split; [discriminate|]);
      apply not_elem_of_nil.
  - discriminate.
  - repeat (apply not_elem_of_cons; split; [discriminate|]);
      apply not_elem_of_nil.
  - vm_compute. reflexivity.
  - repeat constructor; vm_compute; reflexivity.
  - vm_compute. reflexivity.
  - script_is_kept.
  - tree_is_removable.
Defined.

Lemma child_started_in_fresh_tmpdir_witness :
  ∃ c1 c2,
    c1 ∈ rng (st_inherit true) ∧ c2 ∈ rng (st_inherit true)
    ∧ sp_cwd (p_spawn (the_child (run_one_two true 0)))
      = path_join (str "/tmp") (str "airflowtmp") ++ c1
    ∧ sp_args (p_spawn (the_child (run_one_two true 0)))
      = [str "bash";
         path_join (sp_cwd (p_spawn (the_child (run_one_two true 0))))
           (str "t") ++ c2]
    ∧ fs (st_inherit true) !! sp_cwd (p_spawn (the_child (run_one_two true 0)))
      = None.
Proof.
  apply (child_started_in_fresh_tmpdir (P := py_platform out_one_two 0) dag_vars
           (st_inherit true) (the_child (run_one_two true 0))).
  vm_compute. reflexivity.
Defined.

Lemma unencodable_command_witness :
  procs run_surrogate.2 = procs st_surrogate
  ∧ log run_surrogate.2
    = log st_surrogate
      ++ log_prologue (P := py_platform out_one_two 0) dag_vars st_surrogate
  ∧ (run_surrogate.1 = Raise UnicodeEncodeError
     ∨ run_surrogate.1 = Raise FileExistsError).
Proof.
  apply (unencodable_command (P := py_platform out_one_two 0) dag_vars
           st_surrogate).
  cbn. do 5 apply Exists_cons_tl. apply Exists_cons_hd. by left.
Defined.

(** With [self.env] another dict, [os.environ] keeps its entries; with
    [self.env = os.environ] it gains the context variable. *)
Lemma other_dicts_untouched_witness :
  (heap run_two_dicts.2 !! 1%nat = Some supplied_env
   ∧ environ run_two_dicts.2 = parent_environ)
  ∧ environ st_env_is_environ = parent_environ
  ∧ environ run_env_is_environ.2 = dag_vars ∪ parent_environ
  ∧ (dag_vars ∪ parent_environ) !! str "AIRFLOW_CTX_DAG_ID" = Some (str "d").
Proof.
  split; [|split; [|split]].
  - destruct (other_dicts_untouched (P := py_platform out_one_two 0) dag_vars
                st_two_dicts 1%nat supplied_env
                ltac:(vm_compute; reflexivity)) as (H1 & _ & H2 & _).
    split.
    + apply H1. vm_compute. discriminate.
    + refine (eq_trans (H2 _) _); [vm_compute; discriminate|].
      vm_compute. reflexivity.
  - vm_compute. reflexivity.
  - destruct (other_dicts_untouched (P := py_platform out_one_two 0) dag_vars
                st_env_is_environ environ_loc parent_environ
                ltac:(vm_compute; reflexivity)) as (_ & _ & _ & H).
    apply H; reflexivity.
  - vm_compute. reflexivity.
Defined.

Lemma earlier_context_reaches_later_child_witness :
  sp_env (p_spawn (last_child run_retry)) = try_vars ∪ (dag_vars ∪ env_A)
  ∧ sp_env (p_spawn (last_child run_retry)) !! str "AIRFLOW_CTX_DAG_ID"
    = Some (str "d").
Proof.
  pose proof (earlier_context_reaches_later_child
                (P := py_platform out_one_two 0) dag_vars try_vars st_retry
                0%nat env_A (last_child run_retry)
                eq_refl
                ltac:(vm_compute; reflexivity)
                ltac:(vm_compute; reflexivity)) as [H1 H2].
  split; [exact H1|].
  apply H2; vm_compute; reflexivity.
Defined.

Lemma captured_line_is_prefix_witness :
  Forall2 (λ raw l, ∃ t ws,
             py_decode (str "utf-8") raw = Decoded t
             ∧ t = l ++ ws ∧ Forall (λ c, isspace c = true) ws)
    (readlines (p_out (the_child run_trailing))) [str "one"].
Proof.
  apply (captured_line_is_prefix (P := py_platform out_trailing 0) dag_vars
           st_trailing (the_child run_trailing) [str "one"]).
  - vm_compute. reflexivity.
  - vm_compute. reflexivity.
Defined.

Lemma files_elsewhere_untouched_witness :
  sp_fs (p_spawn (the_child (run_one_two true 3))) !! str "/tmp" = Some Dir
  ∧ fs (run_one_two true 3).2 !! str "/tmp" = Some Dir.
Proof.
  pose proof (proj2 (proj2 (files_elsewhere_untouched
                              (P := py_platform out_one_two 3)
                              dag_vars (st_inherit true) (str "/tmp"))
                       (str "/tmp/airflowtmpk3x9") [str "q0w7"]
                       ltac:(vm_compute; reflexivity)
                       ltac:(vm_compute; reflexivity))
                (the_child (run_one_two true 3))
                ltac:(vm_compute; reflexivity)) as [H1 H2].
  split.
  - refine (eq_trans H1 _). vm_compute. reflexivity.
  - refine (eq_trans H2 _). vm_compute. reflexivity.
Defined.


Lemma no_context_carried_over_without_env_witness :
  sp_env (p_spawn (last_child run_retry_inherit)) = try_vars ∪ parent_environ.
Proof.
  refine (eq_trans
            (no_context_carried_over_without_env
               (P := py_platform out_one_two 0)
               dag_vars try_vars st_retry_inherit (last_child run_retry_inherit)
               _ _) _).
  - reflexivity.
  - vm_compute. reflexivity.
  - vm_compute. reflexivity.
Defined.



Lemma utf8_encode_roundtrip_witness :
  utf8_decode [x41; xc3; xa9; xe2; x82; xac; xf0; x9f; x98; x80]
  = Some [0x41; 0xE9; 0x20AC; 0x1F600].
Proof.
  apply (utf8_encode_roundtrip [0x41; 0xE9; 0x20AC; 0x1F600]).
  reflexivity.
Defined.

Lemma pre_exec_restores_defaults_witness :
  disposition forked_child 13 = SIG_IGN
  ∧ ∃ ps', pre_exec linux_signals forked_child = Some ps'
           ∧ disposition ps' 13 = SIG_DFL
           ∧ disposition ps' 25 = SIG_DFL
           ∧ disposition ps' 2 = PyHandler 0.
Proof.
  split; [reflexivity|].
  assert (∃ ps', pre_exec linux_signals forked_child = Some ps') as [ps' Hps]
    by (eexists; vm_compute; reflexivity).
  exists ps'. split; [exact Hps|].
  destruct (pre_exec_restores_defaults linux_signals forked_child ps' Hps)
    as [Hreset Hkeep].
  split_and!.
  - apply (Hreset (str "SIGPIPE")); [|vm_compute; reflexivity].
    apply elem_of_cons. by left.
  - apply (Hreset (str "SIGXFSZ")); [|vm_compute; reflexivity].
    do 2 (apply elem_of_cons; right). apply elem_of_cons. by left.
  - rewrite Hkeep; [reflexivity|].
    intros sig Hsig.
    repeat (apply elem_of_cons in Hsig as [->|Hsig];
            [vm_compute; discriminate|]).
    by apply elem_of_nil in Hsig.
Defined.

Lemma pre_exec_new_session_witness :
  is_Some (pre_exec linux_signals forked_child)
  ∧ ∃ ps', pre_exec linux_signals forked_child = Some ps'
           ∧ ps_sid ps' = 4321%nat ∧ ps_pgid ps' = 4321%nat.
Proof.
  destruct (pre_exec_new_session linux_signals forked_child) as [Hiff Hids].
  assert (is_Some (pre_exec linux_signals forked_child)) as Hsome
    by (apply Hiff; vm_compute; discriminate).
  split; [exact Hsome|].
  destruct Hsome as [ps' Hps]. exists ps'. split; [exact Hps|].
  destruct (Hids ps' Hps) as (_ & Hsid & Hpgid). by split.
Defined.
